(** * Blood-donation EDA script: reconciliation and aggregation

    A shallow embedding of [eda_darah_insight.py].  The script is a straight
    sequence of table operations on two data frames, [facility_df] and
    [state_df]; each operation is embedded as a pure function on lists of
    rows, and every intermediate table of the script keeps its name.

    Conventions.
    - A text cell that is empty in the CSV is [None] (pandas [NaN]); a date
      that [pd.to_datetime(..., errors='coerce')] cannot read is [None]
      (pandas [NaT]).  A name column with at least one name is a text
      column; one without any name is read as a float64 column, on which
      [.str] raises [AttributeError].
    - The [daily] column holds integer counts, one in every row: an int64
      column.  Grouped sums are int64 sums and wrap around ([wrap64]).
    - A numeric cell of the verification table is an [option Z], [None]
      standing for [NaN].  Its columns are float64 as soon as a date is
      missing on one side; the cells and their differences are written
      exactly, and the theorems that depend on their values carry the
      hypothesis [float_exact], under which float64 is exact too.
    - An indexed series (the result of a [groupby(...).sum()]) is an
      association list in index order.
    - Means, variances and quartiles are exact rationals, and the standard
      deviation is the real square root of the variance; the rounding of the
      printed figures is left out. *)

From Stdlib Require Import Reals Qreals.
From Stdlib Require Import ZArith List String Ascii Bool Lia.
From Stdlib Require Import QArith Lqa Permutation Sorted.
Import ListNotations.
Open Scope Z_scope.

(** ** Index keys *)

(** Comparison of the keys of a grouped series. *)
Class KeyCmp (K : Type) := kcmp : K -> K -> comparison.

(** Lexicographic comparison of pairs. *)
Definition lex_cmp {A B} `{KeyCmp A} `{KeyCmp B} (p q : A * B) : comparison :=
  match kcmp (fst p) (fst q) with
  | Eq => kcmp (snd p) (snd q)
  | c => c
  end.

#[export] Instance KeyCmp_Z : KeyCmp Z := Z.compare.
#[export] Instance KeyCmp_string : KeyCmp string := String.compare.
#[export] Instance KeyCmp_pair {A B} `{KeyCmp A} `{KeyCmp B} : KeyCmp (A * B) :=
  lex_cmp.

(** A calendar date, as a parsed [Timestamp]. *)
Record Timestamp := mkTimestamp { ts_year : Z; ts_month : Z; ts_day : Z }.

(** A monthly period, the value of [dt.to_period('M')]. *)
Record Period := mkPeriod { p_year : Z; p_month : Z }.

(** [date.dt.year] *)
Definition dt_year (t : Timestamp) : Z := ts_year t.

(** [date.dt.to_period('M')] *)
Definition to_period_M (t : Timestamp) : Period :=
  mkPeriod (ts_year t) (ts_month t).

Definition timestamp_tuple (t : Timestamp) : Z * Z * Z :=
  (ts_year t, ts_month t, ts_day t).

Definition period_tuple (p : Period) : Z * Z := (p_year p, p_month p).

(** Dates and periods are ordered chronologically. *)
#[export] Instance KeyCmp_Timestamp : KeyCmp Timestamp :=
  fun a b => kcmp (timestamp_tuple a) (timestamp_tuple b).
#[export] Instance KeyCmp_Period : KeyCmp Period :=
  fun a b => kcmp (period_tuple a) (period_tuple b).

(** The laws of a key order: a decidable strict total order. *)
Class KeyOrder (K : Type) `{KeyCmp K} : Prop := {
  kcmp_eq : forall a b : K, kcmp a b = Eq -> a = b;
  kcmp_refl : forall a : K, kcmp a a = Eq;
  kcmp_antisym : forall a b : K, kcmp b a = CompOpp (kcmp a b);
  kcmp_trans : forall a b c : K,
    kcmp a b = Lt -> kcmp b c = Lt -> kcmp a c = Lt
}.

(** ** Data frames *)

(** One row of a data frame, with the columns the script works on: [date],
    the name of the reporting unit (column [hospital] of the facility file,
    column [state] of the state file) and the [daily] count.  [D] is the type
    of the date cell: [option string] as read from the CSV, [option Timestamp]
    once converted. *)
Record Row (D : Type) := mkRow {
  date : D;
  entity : option string;
  daily : Z
}.
Arguments mkRow {D}.
Arguments date {D}.
Arguments entity {D}.
Arguments daily {D}.

Record Frame (D : Type) := mkFrame {
  columns : list string;
  rows : list (Row D)
}.
Arguments mkFrame {D}.
Arguments columns {D}.
Arguments rows {D}.

(** ['c' in df.columns] *)
Definition has_column {D} (c : string) (df : Frame D) : bool :=
  existsb (String.eqb c) (columns df).

(** *** The nationwide rows of the state file *)

Definition lower_ascii (c : ascii) : ascii :=
  let n := N_of_ascii c in
  if ((65 <=? n) && (n <=? 90))%N then ascii_of_N (n + 32) else c.

(** [str.lower()], on the bytes of the text: the capitals A-Z become small
    letters.  No character outside ASCII lowers to a letter of "malaysia",
    so the mask below is the same as on the characters. *)
Fixpoint str_lower (s : string) : string :=
  match s with
  | EmptyString => EmptyString
  | String c s' => String (lower_ascii c) (str_lower s')
  end.

(** One entry of the mask [state_df['state'].str.lower().eq('malaysia')]:
    on a missing cell [str.lower()] stays missing and [eq] answers [False]. *)
Definition is_malaysia {D} (r : Row D) : bool :=
  match entity r with
  | Some s => String.eqb (str_lower s) "malaysia"
  | None => false
  end.

(** What the script can raise while it cleans the state file. *)
Inductive Exception : Type :=
| AttributeError.

(** Whether [.str] applies to a column of names.  [read_csv] gives the
    object dtype to a column with some text in it, and to every column of a
    file without rows; a column whose cells are all empty comes out as
    float64, on which [.str] raises [AttributeError].  (A column of numbers
    has no text either; its cells are not names, and [Row] leaves it out.) *)
Definition is_text_column (cells : list (option string)) : bool :=
  match cells with
  | [] => true
  | _ :: _ => existsb (fun c => match c with
                                | Some _ => true
                                | None => false
                                end) cells
  end.

(** Lines 33-34:
    [if 'state' in state_df.columns:
       state_df = state_df[~state_df['state'].str.lower().eq('malaysia')]] *)
Definition exclude_malaysia {D} (df : Frame D) : Exception + Frame D :=
  if has_column "state" df
  then if is_text_column (map entity (rows df))
       then inr (mkFrame (columns df)
                         (filter (fun r => negb (is_malaysia r)) (rows df)))
       else inl AttributeError
  else inr df.

(** Case-insensitive equality, character by character: two characters are
    the same letter when they are equal or when one is a capital and the other
    the small letter 32 places further. *)
Definition is_upper (n : N) : bool := ((65 <=? n) && (n <=? 90))%N.

Definition same_letter (a b : ascii) : bool :=
  let m := N_of_ascii a in
  let n := N_of_ascii b in
  ((m =? n) || (is_upper m && (n =? m + 32)) || (is_upper n && (m =? n + 32)))%N.

Fixpoint eq_ignore_case (s t : string) : bool :=
  match s, t with
  | EmptyString, EmptyString => true
  | String a s', String b t' => same_letter a b && eq_ignore_case s' t'
  | _, _ => false
  end.

(** A row that stands for the whole country: its name is "Malaysia" in any
    mix of capitals and small letters. *)
Definition is_nationwide {D} (r : Row D) : bool :=
  match entity r with
  | Some s => eq_ignore_case s "Malaysia"
  | None => false
  end.

(** A frame less its nationwide rows. *)
Definition without_nationwide {D} (df : Frame D) : Frame D :=
  mkFrame (columns df)
          (filter (fun r => negb (is_nationwide r)) (rows df)).

(** *** Cleaning *)

(** [fillna('Unknown')] on the name cell of a row. *)
Definition fillna_Unknown {D} (r : Row D) : Row D :=
  mkRow (date r)
        (Some (match entity r with Some s => s | None => "Unknown"%string end))
        (daily r).

(** The first cell of a column that is not missing. *)
Fixpoint first_valid (cells : list (option string)) : option string :=
  match cells with
  | [] => None
  | Some c :: _ => Some c
  | None :: cells' => first_valid cells'
  end.

(** One cell read with the reader of its column; with [errors='coerce'] an
    unreadable or empty cell becomes [NaT] and nothing is raised. *)
Definition to_datetime (reader : string -> option Timestamp)
    (c : option string) : option Timestamp :=
  match c with
  | Some s => reader s
  | None => None
  end.

(** What section 3 of the script makes of one row: the date converted with
    the reader of the column, a missing name filled. *)
Definition clean_row (reader : string -> option Timestamp)
    (r : Row (option string)) : Row (option Timestamp) :=
  fillna_Unknown (mkRow (to_datetime reader (date r)) (entity r) (daily r)).

Section Cleaning.
(** [pd.to_datetime] settles on one way of reading a column from its first
    cell that is not missing (the format it guesses there, or the general
    reader when it guesses none): [infer_reader c0] is the reader chosen on
    seeing [c0]; it answers [None] on a text it cannot read. *)
Variable infer_reader : string -> string -> option Timestamp.

(** The reader of the [date] column of a frame. *)
Definition date_reader (df : Frame (option string))
  : string -> option Timestamp :=
  match first_valid (map date (rows df)) with
  | Some c0 => infer_reader c0
  | None => fun _ => None
  end.

(** [df['date'] = pd.to_datetime(df['date'], errors='coerce')] *)
Definition convert_date (df : Frame (option string))
  : Frame (option Timestamp) :=
  mkFrame (columns df)
          (map (fun r => mkRow (to_datetime (date_reader df) (date r))
                               (entity r) (daily r))
               (rows df)).

(** [facility_df] after section 3 of the script (lines 47 and 55). *)
Definition facility_df (raw : Frame (option string))
  : Frame (option Timestamp) :=
  let df := convert_date raw in
  mkFrame (columns df) (map fillna_Unknown (rows df)).

(** [state_df] after section 3 of the script (lines 33-34, 48, 56-57), or
    the exception of line 34. *)
Definition state_df (raw : Frame (option string))
  : Exception + Frame (option Timestamp) :=
  match exclude_malaysia raw with
  | inl e => inl e
  | inr filtered =>
      let df := convert_date filtered in
      inr (if has_column "state" df
           then mkFrame (columns df) (map fillna_Unknown (rows df))
           else df)
  end.
End Cleaning.

(** What a frame is when the cleaning has raised: nothing to go on with. *)
Definition cleaned (result : Exception + Frame (option Timestamp))
  : Frame (option Timestamp) :=
  match result with
  | inr df => df
  | inl _ => mkFrame [] []
  end.

(** ** Grouped sums *)

(** Addition of int64 wraps around: the value of an integer as an int64. *)
Definition wrap64 (z : Z) : Z :=
  (z + 9223372036854775808) mod 18446744073709551616 - 9223372036854775808.

Section Series.
Context {K : Type} `{KeyCmp K}.

(** A series of integer totals indexed by [K], in index order. *)
Definition Series : Type := list (K * Z).

(** Adds [v] to the total of group [k] in int64, opening the group (a sum
    that starts from 0) at its place in key order when it is new. *)
Fixpoint add_at (k : K) (v : Z) (s : Series) : Series :=
  match s with
  | [] => [(k, wrap64 (0 + v))]
  | (k', v') :: s' =>
      match kcmp k k' with
      | Lt => (k, wrap64 (0 + v)) :: s
      | Eq => (k', wrap64 (v' + v)) :: s'
      | Gt => (k', v') :: add_at k v s'
      end
  end.

(** One row taken into the running totals; a row whose key is missing is
    passed over. *)
Definition groupby_step {R : Type} (key : R -> option K) (val : R -> Z)
    (acc : Series) (r : R) : Series :=
  match key r with
  | Some k => add_at k (val r) acc
  | None => acc
  end.

(** [rows.groupby(key)[val].sum()]: rows whose key is missing are left out
    (the default [dropna=True]); groups come out in key order (the default
    [sort=True]). *)
Definition groupby_sum {R : Type} (key : R -> option K) (val : R -> Z)
    (rs : list R) : Series :=
  fold_left (groupby_step key val) rs [].

Fixpoint insert_by_index (e : K * Z) (s : Series) : Series :=
  match s with
  | [] => [e]
  | e' :: s' =>
      match kcmp (fst e) (fst e') with
      | Gt => e' :: insert_by_index e s'
      | _ => e :: s
      end
  end.

(** [.sort_index()] *)
Definition sort_index (s : Series) : Series :=
  fold_right insert_by_index [] s.

Fixpoint insert_by_value_desc (e : K * Z) (s : Series) : Series :=
  match s with
  | [] => [e]
  | e' :: s' =>
      if snd e' <=? snd e then e :: s else e' :: insert_by_value_desc e s'
  end.

(** [.sort_values(ascending=False)].  The sort of pandas promises no order
    among equal totals; here they keep their index order, as they do in the
    script on a short table. *)
Definition sort_values_desc (s : Series) : Series :=
  fold_right insert_by_value_desc [] s.

(** [s.get(k)]: the total at index [k], if [k] is in the index. *)
Fixpoint get (s : Series) (k : K) : option Z :=
  match s with
  | [] => None
  | (k', v) :: s' =>
      match kcmp k k' with
      | Eq => Some v
      | _ => get s' k
      end
  end.

(** The index of a series. *)
Definition index (s : Series) : list K := map fst s.

(** An index in strictly increasing order. *)
Definition ascending (l : list K) : Prop :=
  StronglySorted (fun a b => kcmp a b = Lt) l.

(** [k' == k] on index keys. *)
Definition key_eqb (k k' : K) : bool :=
  match kcmp k k' with Eq => true | _ => false end.

(** Sum of the totals whose index satisfies [p]. *)
Definition sum_where (p : K -> bool) (s : Series) : Z :=
  fold_right (fun e acc => if p (fst e) then snd e + acc else acc) 0 s.
End Series.
Arguments Series K : clear implicits.

(** Two integers with the same value as int64. *)
Definition eqm64 (a b : Z) : Prop := wrap64 a = wrap64 b.

(** Sum of the absolute values of the totals of a series. *)
Definition abs_total {K : Type} (s : Series K) : Z :=
  fold_right (fun e acc => Z.abs (snd e) + acc) 0 s.

(** Sum of [val] over the rows satisfying [p], as an exact integer. *)
Definition sum_rows {R : Type} (p : R -> bool) (val : R -> Z) (rs : list R)
  : Z :=
  fold_right (fun r acc => if p r then val r + acc else acc) 0 rs.

(** Sum of the absolute values of [val] over the rows. *)
Definition abs_sum_rows {R : Type} (val : R -> Z) (rs : list R) : Z :=
  fold_right (fun r acc => Z.abs (val r) + acc) 0 rs.

(** The counts of the rows are small enough for no int64 sum of them to wrap
    around. *)
Definition no_overflow {R : Type} (val : R -> Z) (rs : list R) : Prop :=
  abs_sum_rows val rs < 9223372036854775808.

(** The counts of the rows are small enough for every sum of them to be
    exact in float64 as well (below 2^53). *)
Definition small_counts {R : Type} (val : R -> Z) (rs : list R) : Prop :=
  abs_sum_rows val rs < 9007199254740992.

(** The totals of a series are at most 2^52 in absolute value: they and
    their differences are then exact in float64. *)
Definition float_exact {K : Type} (s : Series K) : Prop :=
  forallb (fun e => Z.abs (snd e) <=? 4503599627370496) s = true.

(** ** The aggregates of the script *)

(** [df.groupby('date')['daily'].sum()] *)
Definition groupby_date (df : Frame (option Timestamp)) : Series Timestamp :=
  groupby_sum date daily (rows df).

(** [df.groupby(df['date'].dt.year)['daily'].sum()]; the year of [NaT] is
    missing. *)
Definition groupby_year (df : Frame (option Timestamp)) : Series Z :=
  groupby_sum (fun r => option_map dt_year (date r)) daily (rows df).

(** [df.groupby(df['date'].dt.to_period('M'))['daily'].sum()]; the period of
    [NaT] is missing. *)
Definition groupby_month (df : Frame (option Timestamp)) : Series Period :=
  groupby_sum (fun r => option_map to_period_M (date r)) daily (rows df).

(** Lines 71-72. *)
Definition facility_daily_sum (facility : Frame (option Timestamp)) :=
  sort_index (groupby_date facility).
Definition state_daily_sum (state : Frame (option Timestamp)) :=
  sort_index (groupby_date state).

(** Lines 115-116. *)
Definition facility_daily (facility : Frame (option Timestamp)) :=
  groupby_date facility.
Definition state_daily (state : Frame (option Timestamp)) :=
  groupby_date state.

(** Line 127:
    [facility_df.groupby('hospital')['daily'].sum().sort_values(ascending=False)] *)
Definition facility_totals (facility : Frame (option Timestamp))
  : Series string :=
  sort_values_desc (groupby_sum entity daily (rows facility)).

(** Lines 137-138. *)
Definition yearly_facility (facility : Frame (option Timestamp)) :=
  groupby_year facility.
Definition yearly_state (state : Frame (option Timestamp)) :=
  groupby_year state.

(** Line 151: [facility_df.pivot_table(index=facility_df['date'].dt.year,
    columns='hospital', values='daily', aggfunc='sum')], in long form: the
    cell of year [y] and hospital [h] is the total at [(y, h)], and a cell
    without a total is missing.  Rows without a year are left out. *)
Definition facility_yearly_pivot (facility : Frame (option Timestamp))
  : Series (Z * string) :=
  groupby_sum (fun r => match date r, entity r with
                        | Some d, Some h => Some (dt_year d, h)
                        | _, _ => None
                        end) daily (rows facility).

(** Lines 235-236. *)
Definition facility_monthly (facility : Frame (option Timestamp)) :=
  groupby_month facility.
Definition state_monthly (state : Frame (option Timestamp)) :=
  groupby_month state.

(** The rows of a frame whose date is a date. *)
Definition valid_dates (df : Frame (option Timestamp))
  : Frame (option Timestamp) :=
  mkFrame (columns df)
          (filter (fun r => match date r with Some _ => true | None => false end)
                  (rows df)).

(** Day, month and year totals that fit together: a month has a total
    exactly when one of its days has one, and the totals of its days, added in
    int64, give it; likewise for a year and its months. *)
Definition consistent_periods (daily_totals : Series Timestamp)
    (monthly : Series Period) (yearly : Series Z) : Prop :=
  (forall m : Period,
      (In m (index monthly)
       <-> exists d, In d (index daily_totals) /\ to_period_M d = m)
      /\ wrap64 (sum_where (fun d => key_eqb m (to_period_M d)) daily_totals)
         = match get monthly m with Some t => t | None => 0 end)
  /\ (forall y : Z,
        (In y (index yearly)
         <-> exists p, In p (index monthly) /\ p_year p = y)
        /\ wrap64 (sum_where (fun p => key_eqb y (p_year p)) monthly)
           = match get yearly y with Some t => t | None => 0 end).

(** The same with exact sums. *)
Definition exact_periods (daily_totals : Series Timestamp)
    (monthly : Series Period) (yearly : Series Z) : Prop :=
  (forall m : Period,
      sum_where (fun d => key_eqb m (to_period_M d)) daily_totals
      = match get monthly m with Some t => t | None => 0 end)
  /\ (forall y : Z,
        sum_where (fun p => key_eqb y (p_year p)) monthly
        = match get yearly y with Some t => t | None => 0 end).

(** ** Verification of the daily totals (section 4 of the script) *)

(** [a - b] on numeric cells: missing as soon as one side is. *)
Definition cell_sub (a b : option Z) : option Z :=
  match a, b with
  | Some x, Some y => Some (x - y)
  | _, _ => None
  end.

(** [-a] on a numeric cell. *)
Definition cell_opp (a : option Z) : option Z := option_map Z.opp a.

(** [a != 0] on a numeric cell: [NaN != 0] is [True]. *)
Definition cell_ne0 (a : option Z) : bool :=
  match a with
  | Some 0 => false
  | _ => true
  end.

Section Verification.
Context {K : Type} `{KeyCmp K}.

(** One row of [verification_df]. *)
Record VRow := mkVRow {
  vdate : K;
  facility_total : option Z;
  state_total : option Z;
  difference : option Z
}.

(** The sorted union of two sorted indexes, on which the [DataFrame]
    constructor aligns its columns. *)
Fixpoint index_union (a b : list K) : list K :=
  match a with
  | [] => b
  | x :: a' =>
      (fix against (b : list K) : list K :=
         match b with
         | [] => a
         | y :: b' =>
             match kcmp x y with
             | Lt => x :: index_union a' b
             | Eq => x :: index_union a' b'
             | Gt => y :: against b'
             end
         end) b
  end.

(** Lines 75-79: the two series side by side on the union of their
    indexes, a date absent from a series giving a missing cell, and the
    column [difference = facility_total - state_total].  [fsum] and [ssum]
    stand for [facility_daily_sum] and [state_daily_sum]. *)
Definition verification_df (fsum ssum : Series K)
  : list VRow :=
  map (fun d =>
         let f := get fsum d in
         let s := get ssum d in
         mkVRow d f s (cell_sub f s))
      (index_union (index fsum) (index ssum)).

(** A row of the mask [verification_df['difference'] != 0]. *)
Definition mismatched (r : VRow) : bool := cell_ne0 (difference r).

Definition matched (r : VRow) : bool := negb (mismatched r).

(** Line 87. *)
Definition mismatches (fsum ssum : Series K)
  : list VRow :=
  filter mismatched (verification_df fsum ssum).

(** Line 88: [len(mismatches)]. *)
Definition mismatch_count (fsum ssum : Series K)
  : nat :=
  List.length (mismatches fsum ssum).

(** Line 91: [mismatches.head(10)]. *)
Definition mismatch_preview (fsum ssum : Series K)
  : list VRow :=
  firstn 10 (mismatches fsum ssum).

(** The row of [verification_df] with the two sides exchanged. *)
Definition swap_sides (r : VRow) : VRow :=
  mkVRow (vdate r) (state_total r) (facility_total r)
         (cell_opp (difference r)).
End Verification.
Arguments VRow K : clear implicits.

(** ** Descriptive statistics ([describe()]) *)

(** The values of a numeric column that are not missing; [describe] works on
    these alone. *)
Definition dropna (c : list (option Z)) : list Z :=
  flat_map (fun x => match x with Some v => [v] | None => [] end) c.

Definition sum_Z (l : list Z) : Z := fold_right Z.add 0 l.

Definition min_Z (l : list Z) : option Z :=
  match l with
  | [] => None
  | x :: l' => Some (fold_left Z.min l' x)
  end.

Definition max_Z (l : list Z) : option Z :=
  match l with
  | [] => None
  | x :: l' => Some (fold_left Z.max l' x)
  end.

Fixpoint insert_Z (x : Z) (l : list Z) : list Z :=
  match l with
  | [] => [x]
  | y :: l' => if x <=? y then x :: l else y :: insert_Z x l'
  end.

Definition sort_Z (l : list Z) : list Z := fold_right insert_Z [] l.

(** The arithmetic mean, as an exact rational; missing on an empty column. *)
Definition mean (l : list Z) : option Q :=
  match l with
  | [] => None
  | _ => Some (inject_Z (sum_Z l) / inject_Z (Z.of_nat (List.length l)))%Q
  end.

(** The sample variance (one degree of freedom removed), as an exact
    rational; the reported standard deviation is its square root.  Missing
    with fewer than two values. *)
Definition variance (l : list Z) : option Q :=
  match mean l with
  | Some m =>
      if (List.length l <=? 1)%nat then None
      else Some (fold_right (fun x acc =>
                               ((inject_Z x - m) * (inject_Z x - m) + acc)%Q)
                            0%Q l
                 / inject_Z (Z.of_nat (List.length l) - 1))%Q
  | None => None
  end.

(** The quantile of order [num/4] with linear interpolation between the two
    nearest ranks (the default of pandas). *)
Definition quartile (num : Z) (l : list Z) : option Q :=
  match sort_Z l with
  | [] => None
  | (x0 :: _) as s =>
      let pos := num * (Z.of_nat (List.length s) - 1) in
      let lo := Z.to_nat (pos / 4) in
      let a := nth lo s x0 in
      let b := nth (S lo) s a in
      Some (inject_Z a + (inject_Z (pos mod 4) / 4) * (inject_Z b - inject_Z a))%Q
  end.

(** The standard deviation: the square root of the sample variance, a real
    number. *)
Definition std (l : list Z) : option R :=
  match variance l with
  | Some v => Some (sqrt (Q2R v))
  | None => None
  end.

(** The value at rank [k (n - 1) / 4], counted from 0, of a sorted list of
    [n] values, interpolated linearly between the two nearest ranks. *)
Definition rank_between (k : Z) (s : list Z) : Q :=
  let pos := k * (Z.of_nat (List.length s) - 1) in
  let lo := Z.to_nat (pos / 4) in
  let hi := Nat.min (S lo) (List.length s - 1)%nat in
  let a := nth lo s 0 in
  let b := nth hi s 0 in
  (inject_Z a + (inject_Z (pos mod 4) / 4) * (inject_Z b - inject_Z a))%Q.

(** The eight lines that [describe()] prints for one numeric column. *)
Record Description := mkDescription {
  d_count : nat;
  d_mean : option Q;
  d_variance : option Q;
  d_min : option Z;
  d_q25 : option Q;
  d_q50 : option Q;
  d_q75 : option Q;
  d_max : option Z
}.

Definition describe (c : list (option Z)) : Description :=
  let l := dropna c in
  mkDescription (List.length l) (mean l) (variance l) (min_Z l)
                (quartile 1 l) (quartile 2 l) (quartile 3 l) (max_Z l).

(** Line 84, [verification_df.describe()]: one description per column. *)
Definition verification_describe {K} (v : list (VRow K))
  : Description * Description * Description :=
  (describe (map facility_total v),
   describe (map state_total v),
   describe (map difference v)).

(** The description of the [difference] column. *)
Definition describe_difference {K} (v : list (VRow K)) : Description :=
  snd (verification_describe v).

(** The [std] line of the description of the [difference] column. *)
Definition std_difference {K} (v : list (VRow K)) : option R :=
  std (dropna (map difference v)).

(** ** Sample data *)

Definition d_2023_01_01 : Timestamp := mkTimestamp 2023 1 1.
Definition d_2023_01_02 : Timestamp := mkTimestamp 2023 1 2.
Definition d_2023_02_01 : Timestamp := mkTimestamp 2023 2 1.

(** A date reader that knows three dates. *)
Definition sample_parse (s : string) : option Timestamp :=
  if String.eqb s "2023-01-01" then Some d_2023_01_01
  else if String.eqb s "2023-01-02" then Some d_2023_01_02
  else if String.eqb s "2023-02-01" then Some d_2023_02_01
  else None.

(** The reader of a column: the three dates when the first cell is one of
    them, nothing otherwise. *)
Definition sample_reader (c0 : string) : string -> option Timestamp :=
  match sample_parse c0 with
  | Some _ => sample_parse
  | None => fun _ => None
  end.

(** The facility file of the scenario, and a row whose date cannot be
    read. *)
Definition sample_facility : Frame (option string) :=
  mkFrame ["date"; "hospital"; "daily"]%string
    [ mkRow (Some "2023-01-01"%string) (Some "H1"%string) 10;
      mkRow (Some "2023-01-01"%string) (Some "H2"%string) 5;
      mkRow (Some "31/31/2023"%string) (Some "H2"%string) 7 ].

(** The state file of the scenario, with a nationwide row, a row without a
    name and a row with a negative count and an unreadable date. *)
Definition sample_state : Frame (option string) :=
  mkFrame ["date"; "state"; "daily"]%string
    [ mkRow (Some "2023-01-01"%string) (Some "RegionA"%string) 14;
      mkRow (Some "2023-01-01"%string) (Some "MALAYSIA"%string) 14;
      mkRow (Some "2023-01-02"%string) None 3;
      mkRow (Some "soon"%string) (Some "RegionB"%string) (-2) ].

(** A state file in which no row has a name. *)
Definition nameless_state : Frame (option string) :=
  mkFrame ["date"; "state"; "daily"]%string
    [ mkRow (Some "2023-01-01"%string) None 14;
      mkRow (Some "2023-01-02"%string) None 3 ].

(** The two sample files, cleaned. *)
Definition sample_facility_df : Frame (option Timestamp) :=
  facility_df sample_reader sample_facility.
Definition sample_state_df : Frame (option Timestamp) :=
  cleaned (state_df sample_reader sample_state).

(** The rows of the hospital scenario: two reports of H1 and one of H2, all
    on the same day. *)
Definition hospital_rows : list (Row (option Timestamp)) :=
  [ mkRow (Some d_2023_01_01) (Some "H1"%string) 10;
    mkRow (Some d_2023_01_01) (Some "H1"%string) 20;
    mkRow (Some d_2023_01_01) (Some "H2"%string) 5 ].

(** ** The reports and charts of the script *)

(** Lines 51-52, [df.isnull().sum()], for the [date] column and for the name
    column.  The frames printed there have their dates converted and their
    names not yet filled. *)
Definition isnull_sum_date (df : Frame (option Timestamp)) : nat :=
  List.length (filter (fun r => match date r with
                                | Some _ => false
                                | None => true
                                end) (rows df)).

Definition isnull_sum_entity {D} (df : Frame D) : nat :=
  List.length (filter (fun r => match entity r with
                                | Some _ => false
                                | None => true
                                end) (rows df)).

(** The name under which a row of the raw file is counted. *)
Definition filled_name {D} (r : Row D) : string :=
  match entity r with
  | Some s => s
  | None => "Unknown"%string
  end.

(** Lines 89-93: what is printed under the number of mismatched days. *)
Inductive VerificationReport (K : Type) : Type :=
| SampleOfMismatches (sample : list (VRow K))
| AllTotalsMatch.
Arguments SampleOfMismatches {K}.
Arguments AllTotalsMatch {K}.

Definition verification_report {K} `{KeyCmp K} (fsum ssum : Series K)
  : VerificationReport K :=
  match mismatches fsum ssum with
  | [] => AllTotalsMatch
  | _ :: _ => SampleOfMismatches (mismatch_preview fsum ssum)
  end.

(** Lines 108 and 111, [df.describe()]: the description of the [daily]
    column. *)
Definition describe_daily {D} (df : Frame D) : Description :=
  describe (map (fun r => Some (daily r)) (rows df)).

(** Line 129: [facility_totals.head(15)], the hospitals of the bar chart. *)
Definition top_hospitals (facility : Frame (option Timestamp))
  : Series string :=
  firstn 15 (facility_totals facility).

(** The sum of all the totals of a series. *)
Definition sum_all {K} (s : Series K) : Z := sum_Z (map snd s).

(** *** The grouped bar charts (sections 9 to 12 of the script) *)

Module Charts.

(** The numeric columns of a data frame other than [daily], by name. *)
Definition Columns : Type := list (string * list (option Z)).

Definition blood_types : list string :=
  ["blood_a"; "blood_b"; "blood_o"; "blood_ab"]%string.
Definition social_groups : list string :=
  ["social_civilian"; "social_student"; "social_policearmy"]%string.
Definition donor_types : list string :=
  ["donations_new"; "donations_regular"; "donations_irregular"]%string.

Inductive Error : Type :=
| KeyError (missing : list string)
| ShapeMismatch (n m : nat).

(** [df[c]] *)
Fixpoint column (c : string) (df : Columns) : option (list (option Z)) :=
  match df with
  | [] => None
  | (c', cells) :: df' => if String.eqb c c' then Some cells else column c df'
  end.

(** The names that are not columns of the frame. *)
Definition missing_columns (names : list string) (df : Columns)
  : list string :=
  filter (fun c => match column c df with
                   | Some _ => false
                   | None => true
                   end) names.

(** [df[names].sum()]: the sum of each named column, missing cells passed
    over; names that are not columns raise [KeyError], which lists them. *)
Definition select_sum (names : list string) (df : Columns)
  : Error + list Z :=
  match missing_columns names df with
  | [] =>
      inr (map (fun c => match column c df with
                         | Some cells => sum_Z (dropna cells)
                         | None => 0
                         end) names)
  | missing => inl (KeyError missing)
  end.

(** [np.arange(n)] *)
Definition arange (n : nat) : list Q :=
  map (fun i => inject_Z (Z.of_nat i)) (seq 0 n).

(** Line 167. *)
Definition width : Q := 35 # 100.

(** Line 168: [x = np.arange(len(blood_types))]; the four charts share it. *)
Definition x : list Q := arange (List.length blood_types).

(** [plt.bar(positions, heights, width)]: positions and heights are
    broadcast against each other, one bar per pair; two lengths that differ,
    none of them 1, raise [ValueError] (shape mismatch). *)
Definition bar (positions : list Q) (heights : list Z)
  : Error + list (Q * Z) :=
  let n := List.length positions in
  let m := List.length heights in
  if (n =? m)%nat then inr (combine positions heights)
  else if (n =? 1)%nat then inr (map (fun h => (hd 0%Q positions, h)) heights)
  else if (m =? 1)%nat then inr (map (fun p => (p, hd 0 heights)) positions)
  else inl (ShapeMismatch n m).

(** One grouped chart: the sums of the named columns of the two frames, the
    facility bars to the left of each position of [x] and the state bars to
    the right (lines 165-170, 182-185, 196-199, 210-213). *)
Definition grouped_bars (names : list string) (facility state : Columns)
  : Error + (list (Q * Z) * list (Q * Z)) :=
  match select_sum names facility with
  | inl e => inl e
  | inr facility_sums =>
      match select_sum names state with
      | inl e => inl e
      | inr state_sums =>
          match bar (map (fun p => p - width / 2)%Q x) facility_sums with
          | inl e => inl e
          | inr left_bars =>
              match bar (map (fun p => p + width / 2)%Q x) state_sums with
              | inl e => inl e
              | inr right_bars => inr (left_bars, right_bars)
              end
          end
      end
  end.
End Charts.


(** * Properties *)

(** ** The key orders *)

#[export] Instance KeyOrder_Z : KeyOrder Z.
Proof.
  split; unfold kcmp, KeyCmp_Z.
  - intros a b. apply Z.compare_eq.
  - apply Z.compare_refl.
  - intros a b. apply Z.compare_antisym.
  - intros a b c. rewrite !Z.compare_lt_iff. lia.
Qed.

Lemma ascii_compare_refl (a : ascii) : Ascii.compare a a = Eq.
Proof. unfold Ascii.compare. apply N.compare_refl. Qed.

Lemma ascii_compare_trans (a b c : ascii) :
  Ascii.compare a b = Lt -> Ascii.compare b c = Lt -> Ascii.compare a c = Lt.
Proof. unfold Ascii.compare. rewrite !N.compare_lt_iff. lia. Qed.

Lemma string_compare_refl (s : string) : String.compare s s = Eq.
Proof.
  induction s as [|a s IH]; simpl; [reflexivity|].
  now rewrite ascii_compare_refl.
Qed.

Lemma string_compare_trans (s t u : string) :
  String.compare s t = Lt -> String.compare t u = Lt ->
  String.compare s u = Lt.
Proof.
  revert t u.
  induction s as [|a s IH]; intros [|b t] [|c u]; simpl;
    try discriminate; auto.
  destruct (Ascii.compare a b) eqn:Eab; try discriminate;
    destruct (Ascii.compare b c) eqn:Ebc; try discriminate; intros H1 H2.
  - apply Ascii.compare_eq_iff in Eab, Ebc. subst.
    rewrite ascii_compare_refl. eauto.
  - apply Ascii.compare_eq_iff in Eab. subst. now rewrite Ebc.
  - apply Ascii.compare_eq_iff in Ebc. subst. now rewrite Eab.
  - now rewrite (ascii_compare_trans _ _ _ Eab Ebc).
Qed.

#[export] Instance KeyOrder_string : KeyOrder string.
Proof.
  split; unfold kcmp, KeyCmp_string.
  - apply String.compare_eq_iff.
  - apply string_compare_refl.
  - intros a b. apply String.compare_antisym.
  - apply string_compare_trans.
Qed.

Lemma kcmp_pair {A B} `{KeyCmp A} `{KeyCmp B} (a1 a2 : A) (b1 b2 : B) :
  kcmp (a1, b1) (a2, b2)
  = match kcmp a1 a2 with Eq => kcmp b1 b2 | c => c end.
Proof. reflexivity. Qed.

#[export] Instance KeyOrder_pair {A B} `{KeyOrder A} `{KeyOrder B} :
  KeyOrder (A * B).
Proof.
  split.
  - intros [a1 b1] [a2 b2]. rewrite kcmp_pair.
    destruct (kcmp a1 a2) eqn:E; try discriminate.
    intros E'. apply kcmp_eq in E, E'. congruence.
  - intros [a b]. rewrite kcmp_pair. now rewrite !kcmp_refl.
  - intros [a1 b1] [a2 b2]. rewrite !kcmp_pair.
    rewrite (kcmp_antisym a1 a2).
    destruct (kcmp a1 a2); simpl; auto using kcmp_antisym.
  - intros [a1 b1] [a2 b2] [a3 b3]. rewrite !kcmp_pair.
    destruct (kcmp a1 a2) eqn:E1; try discriminate;
      destruct (kcmp a2 a3) eqn:E2; try discriminate; intros H3 H4.
    + apply kcmp_eq in E1, E2. subst. rewrite kcmp_refl.
      eapply kcmp_trans; eassumption.
    + apply kcmp_eq in E1. subst. now rewrite E2.
    + apply kcmp_eq in E2. subst. now rewrite E1.
    + now rewrite (kcmp_trans _ _ _ E1 E2).
Qed.

(** An order read through an injection is an order. *)
Lemma KeyOrder_inj {K K'} `{KeyOrder K'} (f : K -> K') :
  (forall a b, f a = f b -> a = b) ->
  @KeyOrder K (fun a b => kcmp (f a) (f b)).
Proof.
  intros f_inj. split; unfold kcmp at 1.
  - intros a b E. now apply f_inj, kcmp_eq.
  - intros a. apply kcmp_refl.
  - intros a b. exact (kcmp_antisym (f a) (f b)).
  - intros a b c. exact (kcmp_trans (f a) (f b) (f c)).
Qed.

#[export] Instance KeyOrder_Timestamp : KeyOrder Timestamp.
Proof.
  apply (KeyOrder_inj timestamp_tuple).
  intros [] []; unfold timestamp_tuple; simpl; congruence.
Qed.

#[export] Instance KeyOrder_Period : KeyOrder Period.
Proof.
  apply (KeyOrder_inj period_tuple).
  intros [] []; unfold period_tuple; simpl; congruence.
Qed.

(** ** Sums in int64 *)

Lemma wrap64_mod (z : Z) :
  wrap64 z mod 18446744073709551616 = z mod 18446744073709551616.
Proof.
  unfold wrap64. rewrite Zminus_mod_idemp_l. f_equal. lia.
Qed.

Lemma wrap64_of_mod (a b : Z) :
  a mod 18446744073709551616 = b mod 18446744073709551616 ->
  wrap64 a = wrap64 b.
Proof.
  intros E. unfold wrap64.
  rewrite <- (Zplus_mod_idemp_l a), <- (Zplus_mod_idemp_l b), E.
  reflexivity.
Qed.

Lemma wrap64_range (z : Z) :
  - 9223372036854775808 <= wrap64 z < 9223372036854775808.
Proof.
  unfold wrap64.
  pose proof (Z.mod_pos_bound (z + 9223372036854775808) 18446744073709551616).
  lia.
Qed.

Lemma wrap64_small (z : Z) :
  - 9223372036854775808 <= z < 9223372036854775808 -> wrap64 z = z.
Proof. intros Hz. unfold wrap64. rewrite Z.mod_small; lia. Qed.

Lemma wrap64_idem (z : Z) : wrap64 (wrap64 z) = wrap64 z.
Proof. apply wrap64_small, wrap64_range. Qed.

Lemma wrap64_abs (z : Z) : Z.abs (wrap64 z) <= Z.abs z.
Proof.
  pose proof (wrap64_range z) as Hr.
  destruct (Z_le_gt_dec (- 9223372036854775808) z) as [Hlo|Hlo];
    [destruct (Z_lt_ge_dec z 9223372036854775808) as [Hhi|Hhi]|].
  - rewrite wrap64_small; lia.
  - lia.
  - lia.
Qed.

#[export] Instance eqm64_equiv : Equivalence eqm64.
Proof.
  unfold eqm64. split.
  - intros a. reflexivity.
  - intros a b E. now symmetry.
  - intros a b c E1 E2. now rewrite E1.
Qed.

#[export] Instance eqm64_add : Proper (eqm64 ==> eqm64 ==> eqm64) Z.add.
Proof.
  intros a a' Ea b b' Eb. unfold eqm64 in *. apply wrap64_of_mod.
  apply (f_equal (fun z => z mod 18446744073709551616)) in Ea, Eb.
  rewrite !wrap64_mod in Ea, Eb.
  rewrite (Z.add_mod a b), (Z.add_mod a' b') by lia. now rewrite Ea, Eb.
Qed.

Lemma eqm64_wrap (z : Z) : eqm64 (wrap64 z) z.
Proof. unfold eqm64. apply wrap64_idem. Qed.

Lemma eqm64_eq (a b : Z) : a = b -> eqm64 a b.
Proof. intros ->. reflexivity. Qed.

(** Two integers in the int64 range with the same int64 value are equal. *)
Lemma eqm64_exact (a b : Z) :
  eqm64 a b ->
  Z.abs a < 9223372036854775808 -> Z.abs b < 9223372036854775808 -> a = b.
Proof.
  unfold eqm64. intros E Ha Hb.
  rewrite !wrap64_small in E; lia.
Qed.

Lemma sum_rows_abs {R} (p : R -> bool) (val : R -> Z) (rs : list R) :
  Z.abs (sum_rows p val rs) <= abs_sum_rows val rs.
Proof.
  induction rs as [|r rs IH]; simpl; [lia|]. destruct (p r); lia.
Qed.

Lemma sum_where_abs {K} (p : K -> bool) (s : Series K) :
  Z.abs (sum_where p s) <= abs_total s.
Proof.
  induction s as [|e s IH]; simpl; [lia|]. destruct (p (fst e)); lia.
Qed.

(** ** Grouped sums: index order and totals *)

Section SeriesFacts.
Context {K : Type} `{KeyOrder K}.

Lemma kcmp_Gt_Lt (a b : K) : kcmp a b = Gt -> kcmp b a = Lt.
Proof. intros E. now rewrite kcmp_antisym, E. Qed.

Lemma kcmp_Lt_Gt (a b : K) : kcmp a b = Lt -> kcmp b a = Gt.
Proof. intros E. now rewrite kcmp_antisym, E. Qed.

Lemma key_eqb_eq (a b : K) : key_eqb a b = true <-> a = b.
Proof.
  unfold key_eqb. split.
  - destruct (kcmp a b) eqn:E; try discriminate. intros _. now apply kcmp_eq.
  - intros ->. now rewrite kcmp_refl.
Qed.

Lemma add_at_index (k : K) (v : Z) (s : Series K) (k' : K) :
  In k' (index (add_at k v s)) <-> k' = k \/ In k' (index s).
Proof.
  induction s as [|[k0 v0] s IH]; simpl.
  - intuition.
  - destruct (kcmp k k0) eqn:E; simpl.
    + apply kcmp_eq in E. subst. intuition.
    + intuition.
    + rewrite IH. intuition.
Qed.

Lemma add_at_ascending (k : K) (v : Z) (s : Series K) :
  ascending (index s) -> ascending (index (add_at k v s)).
Proof.
  unfold ascending.
  induction s as [|[k0 v0] s IH]; simpl; intros Hs.
  - constructor; [constructor | constructor].
  - apply StronglySorted_inv in Hs. destruct Hs as [Hs Hall].
    destruct (kcmp k k0) eqn:E; simpl.
    + constructor; assumption.
    + constructor.
      * constructor; assumption.
      * constructor; [assumption|].
        rewrite Forall_forall in *. intros x Hx.
        eapply kcmp_trans; eauto.
    + constructor; [auto|].
      rewrite Forall_forall in *. intros x Hx.
      apply add_at_index in Hx. destruct Hx as [->|Hx]; auto.
      now apply kcmp_Gt_Lt.
Qed.

Lemma sum_where_add_at (p : K -> bool) (k : K) (v : Z) (s : Series K) :
  eqm64 (sum_where p (add_at k v s))
        ((if p k then v else 0) + sum_where p s).
Proof.
  induction s as [|[k0 v0] s IH]; simpl.
  - destruct (p k); [|reflexivity]. now rewrite eqm64_wrap.
  - destruct (kcmp k k0) eqn:E; simpl.
    + apply kcmp_eq in E. subst. destruct (p k0); [|reflexivity].
      rewrite eqm64_wrap. apply eqm64_eq. lia.
    + destruct (p k), (p k0); rewrite ?eqm64_wrap; simpl; reflexivity.
    + destruct (p k0); rewrite IH; apply eqm64_eq; destruct (p k); lia.
Qed.

(** The totals of a series are int64 values. *)
Lemma add_at_int64 (k : K) (v : Z) (s : Series K) :
  Forall (fun e => wrap64 (snd e) = snd e) s ->
  Forall (fun e => wrap64 (snd e) = snd e) (add_at k v s).
Proof.
  induction s as [|[k0 v0] s IH]; simpl; intros Hs.
  - constructor; [apply wrap64_idem | constructor].
  - inversion Hs as [|? ? Hv0 Hs']; subst.
    destruct (kcmp k k0); constructor; simpl; auto using wrap64_idem.
Qed.

Lemma abs_total_add_at (k : K) (v : Z) (s : Series K) :
  abs_total (add_at k v s) <= Z.abs v + abs_total s.
Proof.
  induction s as [|[k0 v0] s IH]; simpl.
  - pose proof (wrap64_abs v). lia.
  - destruct (kcmp k k0); simpl.
    + pose proof (wrap64_abs (v0 + v)). lia.
    + pose proof (wrap64_abs v). lia.
    + lia.
Qed.

Section Rows.
Context {R : Type} (key : R -> option K) (val : R -> Z).

Lemma fold_step_ascending (rs : list R) (acc : Series K) :
  ascending (index acc) -> ascending (index (fold_left (groupby_step key val) rs acc)).
Proof.
  revert acc. induction rs as [|r rs IH]; simpl; intros acc Hacc.
  - assumption.
  - apply IH. unfold groupby_step. destruct (key r); auto using add_at_ascending.
Qed.

Lemma fold_step_index (rs : list R) (acc : Series K) (k : K) :
  In k (index (fold_left (groupby_step key val) rs acc))
  <-> In k (index acc) \/ exists r, In r rs /\ key r = Some k.
Proof.
  revert acc. induction rs as [|r rs IH]; simpl; intros acc.
  - split; [auto | intros [?|(r & [] & _)]; assumption].
  - rewrite IH. unfold groupby_step. destruct (key r) as [k0|] eqn:Ek.
    + rewrite add_at_index. split.
      * intros [[->|Hin]|(r' & Hr' & Hk)]; eauto 6.
      * intros [Hin|(r' & [->|Hr'] & Hk)]; eauto 6.
        rewrite Ek in Hk. injection Hk as ->. auto.
    + split.
      * intros [Hin|(r' & Hr' & Hk)]; eauto 6.
      * intros [Hin|(r' & [->|Hr'] & Hk)]; eauto 6. congruence.
Qed.

Lemma fold_step_sum_where (p : K -> bool) (rs : list R) (acc : Series K) :
  eqm64 (sum_where p (fold_left (groupby_step key val) rs acc))
        (sum_where p acc
         + sum_rows (fun r => match key r with Some k => p k | None => false end)
                    val rs).
Proof.
  revert acc. induction rs as [|r rs IH]; simpl; intros acc.
  - apply eqm64_eq. lia.
  - rewrite IH. unfold groupby_step. destruct (key r) as [k0|].
    + rewrite sum_where_add_at. apply eqm64_eq. destruct (p k0); lia.
    + reflexivity.
Qed.

Lemma fold_step_int64 (rs : list R) (acc : Series K) :
  Forall (fun e => wrap64 (snd e) = snd e) acc ->
  Forall (fun e => wrap64 (snd e) = snd e)
         (fold_left (groupby_step key val) rs acc).
Proof.
  revert acc. induction rs as [|r rs IH]; simpl; intros acc Hacc; [assumption|].
  apply IH. unfold groupby_step. destruct (key r); auto using add_at_int64.
Qed.

Lemma fold_step_abs_total (rs : list R) (acc : Series K) :
  abs_total (fold_left (groupby_step key val) rs acc)
  <= abs_total acc + abs_sum_rows val rs.
Proof.
  revert acc. induction rs as [|r rs IH]; simpl; intros acc; [lia|].
  specialize (IH (groupby_step key val acc r)).
  assert (Hs : abs_total (groupby_step key val acc r)
               <= abs_total acc + Z.abs (val r)).
  { unfold groupby_step. destruct (key r); [|lia].
    pose proof (abs_total_add_at k (val r) acc). lia. }
  lia.
Qed.

(** The index of a grouped sum is strictly increasing. *)
Lemma groupby_sum_ascending (rs : list R) :
  ascending (index (groupby_sum key val rs)).
Proof. apply fold_step_ascending. constructor. Qed.

(** The index of a grouped sum holds exactly the keys of the rows. *)
Lemma groupby_sum_index (rs : list R) (k : K) :
  In k (index (groupby_sum key val rs))
  <-> exists r, In r rs /\ key r = Some k.
Proof.
  unfold groupby_sum. rewrite fold_step_index. simpl. tauto.
Qed.

(** Summing a grouped sum over a set of keys sums, in int64, the rows that
    carry these keys. *)
Lemma groupby_sum_sum_where (p : K -> bool) (rs : list R) :
  wrap64 (sum_where p (groupby_sum key val rs))
  = wrap64 (sum_rows (fun r => match key r with
                               | Some k => p k
                               | None => false
                               end) val rs).
Proof.
  unfold groupby_sum. apply fold_step_sum_where.
Qed.

(** The totals of a grouped sum are int64 values. *)
Lemma groupby_sum_int64 (rs : list R) :
  Forall (fun e => wrap64 (snd e) = snd e) (groupby_sum key val rs).
Proof. apply fold_step_int64. constructor. Qed.

(** The totals of a grouped sum are no larger together than the rows. *)
Lemma groupby_sum_abs_total (rs : list R) :
  abs_total (groupby_sum key val rs) <= abs_sum_rows val rs.
Proof.
  unfold groupby_sum. pose proof (fold_step_abs_total rs []) as Hle.
  simpl in Hle. lia.
Qed.

(** Without overflow the sums are exact. *)
Lemma groupby_sum_sum_where_exact (p : K -> bool) (rs : list R) :
  no_overflow val rs ->
  sum_where p (groupby_sum key val rs)
  = sum_rows (fun r => match key r with
                       | Some k => p k
                       | None => false
                       end) val rs.
Proof.
  unfold no_overflow. intros Hb. apply eqm64_exact.
  - apply groupby_sum_sum_where.
  - pose proof (sum_where_abs p (groupby_sum key val rs)).
    pose proof (groupby_sum_abs_total rs). lia.
  - pose proof (sum_rows_abs
                  (fun r => match key r with
                            | Some k => p k
                            | None => false
                            end) val rs). lia.
Qed.
End Rows.
End SeriesFacts.

(** ** Reading a series, and the union of two indexes *)

Section IndexFacts.
Context {K : Type} `{KeyOrder K}.

Lemma get_In (s : Series K) (k : K) (v : Z) :
  get s k = Some v -> In (k, v) s.
Proof.
  induction s as [|[k0 v0] s IH]; simpl; [discriminate|].
  destruct (kcmp k k0) eqn:E; auto.
  apply kcmp_eq in E. subst. intros [= ->]. now left.
Qed.

Lemma get_None (s : Series K) (k : K) :
  get s k = None <-> ~ In k (index s).
Proof.
  induction s as [|[k0 v0] s IH]; simpl; [tauto|].
  destruct (kcmp k k0) eqn:E.
  - apply kcmp_eq in E. subst. split; [discriminate | tauto].
  - rewrite IH. split; [|tauto]. intros Hn [->|Hin]; [|tauto].
    now rewrite kcmp_refl in E.
  - rewrite IH. split; [|tauto]. intros Hn [->|Hin]; [|tauto].
    now rewrite kcmp_refl in E.
Qed.

Lemma get_index (s : Series K) (k : K) :
  In k (index s) <-> exists v, get s k = Some v.
Proof.
  destruct (get s k) as [v|] eqn:E.
  - split; [eauto|]. intros _. apply get_In in E.
    apply (in_map fst) in E. exact E.
  - split.
    + intros Hin. now apply get_None in E.
    + intros [v [=]].
Qed.

Lemma ascending_get (s : Series K) (k : K) (v : Z) :
  ascending (index s) -> In (k, v) s -> get s k = Some v.
Proof.
  unfold ascending.
  induction s as [|[k0 v0] s IH]; simpl; [tauto|].
  intros Hs. apply StronglySorted_inv in Hs. destruct Hs as [Hs Hall].
  intros [[= -> ->]|Hin].
  - now rewrite kcmp_refl.
  - rewrite Forall_forall in Hall.
    assert (Hlt : kcmp k0 k = Lt) by (apply Hall; apply (in_map fst) in Hin; exact Hin).
    rewrite (kcmp_Lt_Gt _ _ Hlt). auto.
Qed.

Lemma sum_where_above (k : K) (s : Series K) :
  Forall (fun k' => kcmp k k' = Lt) (index s) ->
  sum_where (key_eqb k) s = 0.
Proof.
  induction s as [|[k0 v0] s IH]; simpl; [reflexivity|].
  intros Hall. inversion Hall as [|? ? Hlt Hall']; subst.
  unfold key_eqb at 1. rewrite Hlt. auto.
Qed.

(** In a series with an increasing index, the total read at [k] is the sum
    of the entries at [k]. *)
Lemma sum_where_get (s : Series K) (k : K) :
  ascending (index s) ->
  sum_where (key_eqb k) s = match get s k with Some v => v | None => 0 end.
Proof.
  unfold ascending.
  induction s as [|[k0 v0] s IH]; simpl; [reflexivity|].
  intros Hs. apply StronglySorted_inv in Hs. destruct Hs as [Hs Hall].
  unfold key_eqb at 1. destruct (kcmp k k0) eqn:E; auto.
  apply kcmp_eq in E. subst. rewrite sum_where_above by assumption. lia.
Qed.

Lemma insert_by_index_head (e : K * Z) (s : Series K) :
  Forall (fun k' => kcmp (fst e) k' = Lt) (index s) ->
  insert_by_index e s = e :: s.
Proof.
  destruct s as [|e' s]; simpl; [reflexivity|].
  intros Hall. inversion Hall as [|? ? Hlt _]; subst. now rewrite Hlt.
Qed.

(** Sorting a series whose index is already increasing changes nothing. *)
Lemma sort_index_ascending (s : Series K) :
  ascending (index s) -> sort_index s = s.
Proof.
  unfold ascending.
  induction s as [|e s IH]; simpl; [reflexivity|].
  intros Hs. apply StronglySorted_inv in Hs. destruct Hs as [Hs Hall].
  rewrite IH by assumption. now apply insert_by_index_head.
Qed.

Lemma index_union_nil_r (a : list K) : index_union a [] = a.
Proof. destruct a; reflexivity. Qed.

Lemma index_union_cons (x y : K) (a b : list K) :
  index_union (x :: a) (y :: b)
  = match kcmp x y with
    | Lt => x :: index_union a (y :: b)
    | Eq => x :: index_union a b
    | Gt => y :: index_union (x :: a) b
    end.
Proof. reflexivity. Qed.

Lemma index_union_In (a b : list K) (k : K) :
  In k (index_union a b) <-> In k a \/ In k b.
Proof.
  revert b. induction a as [|x a IHa]; intros b.
  - simpl. tauto.
  - induction b as [|y b IHb].
    + rewrite index_union_nil_r. simpl. tauto.
    + rewrite index_union_cons. destruct (kcmp x y) eqn:E.
      * apply kcmp_eq in E. subst. simpl. rewrite IHa. tauto.
      * simpl. rewrite IHa. simpl. tauto.
      * simpl In at 1. rewrite IHb. simpl. tauto.
Qed.

Lemma index_union_comm (a b : list K) : index_union a b = index_union b a.
Proof.
  revert b. induction a as [|x a IHa]; intros b.
  - now rewrite index_union_nil_r.
  - induction b as [|y b IHb].
    + reflexivity.
    + rewrite !index_union_cons, (kcmp_antisym x y).
      destruct (kcmp x y) eqn:E; cbn [CompOpp].
      * apply kcmp_eq in E. subst. now rewrite IHa.
      * now rewrite IHa.
      * now rewrite IHb.
Qed.

Lemma index_union_diag (a : list K) : index_union a a = a.
Proof.
  induction a as [|x a IH]; [reflexivity|].
  rewrite index_union_cons, kcmp_refl. now rewrite IH.
Qed.
End IndexFacts.

(** ** Descriptive statistics: what the numbers are *)

Lemma fold_min_spec (l : list Z) (x : Z) :
  In (fold_left Z.min l x) (x :: l)
  /\ forall y, In y (x :: l) -> fold_left Z.min l x <= y.
Proof.
  revert x. induction l as [|a l IH]; intros x; simpl.
  - split; [now left | intros y [->|[]]; lia].
  - destruct (IH (Z.min x a)) as [Hin Hle]. split.
    + destruct Hin as [Hm|Hin]; [|now right; right].
      rewrite <- Hm. destruct (Z.min_spec x a) as [[_ ->]|[_ ->]]; auto.
    + intros y [->|[->|Hy]].
      * specialize (Hle (Z.min y a) (or_introl eq_refl)). lia.
      * specialize (Hle (Z.min x y) (or_introl eq_refl)). lia.
      * apply Hle. now right.
Qed.

Lemma fold_max_spec (l : list Z) (x : Z) :
  In (fold_left Z.max l x) (x :: l)
  /\ forall y, In y (x :: l) -> y <= fold_left Z.max l x.
Proof.
  revert x. induction l as [|a l IH]; intros x; simpl.
  - split; [now left | intros y [->|[]]; lia].
  - destruct (IH (Z.max x a)) as [Hin Hle]. split.
    + destruct Hin as [Hm|Hin]; [|now right; right].
      rewrite <- Hm. destruct (Z.max_spec x a) as [[_ ->]|[_ ->]]; auto.
    + intros y [->|[->|Hy]].
      * specialize (Hle (Z.max y a) (or_introl eq_refl)). lia.
      * specialize (Hle (Z.max x y) (or_introl eq_refl)). lia.
      * apply Hle. now right.
Qed.

(** The reported minimum is the least of the values, the reported maximum
    the greatest. *)
Lemma min_max_spec (l : list Z) (x : Z) :
  In x l ->
  exists lo hi, min_Z l = Some lo /\ max_Z l = Some hi
                /\ In lo l /\ In hi l /\ lo <= x <= hi.
Proof.
  destruct l as [|a l]; [intros []|]. intros Hx.
  destruct (fold_min_spec l a) as [Hmin Hle].
  destruct (fold_max_spec l a) as [Hmax Hge].
  exists (fold_left Z.min l a), (fold_left Z.max l a).
  repeat split; auto.
Qed.

(** The reported mean times the number of values is their sum. *)
Lemma mean_spec (l : list Z) :
  match mean l with
  | Some m => (m * inject_Z (Z.of_nat (List.length l)) == inject_Z (sum_Z l))%Q
  | None => l = []
  end.
Proof.
  destruct l as [|a l]; [reflexivity|].
  unfold mean. rewrite Qmult_comm. apply Qmult_div_r.
  unfold Qeq. simpl. lia.
Qed.

Lemma dropna_In (c : list (option Z)) (x : Z) :
  In x (dropna c) <-> In (Some x) c.
Proof.
  unfold dropna. rewrite in_flat_map. split.
  - intros ([y|] & Hin & Hx); simpl in Hx; [|tauto].
    destruct Hx as [->|[]]. assumption.
  - intros Hin. exists (Some x). simpl. auto.
Qed.

Lemma insert_Z_In (x : Z) (l : list Z) (y : Z) :
  In y (insert_Z x l) <-> y = x \/ In y l.
Proof.
  induction l as [|a l IH]; simpl.
  - intuition.
  - destruct (x <=? a); simpl; [|rewrite IH]; intuition.
Qed.

Lemma sort_Z_In (l : list Z) (y : Z) : In y (sort_Z l) <-> In y l.
Proof.
  induction l as [|a l IH]; simpl; [tauto|].
  rewrite insert_Z_In, IH. intuition.
Qed.

Lemma nth_In_default (s : list Z) (n : nat) (d : Z) :
  In d s -> In (nth n s d) s.
Proof.
  intros Hd. destruct (Nat.lt_ge_cases n (List.length s)) as [Hlt|Hge].
  - now apply nth_In.
  - now rewrite nth_overflow.
Qed.

Lemma interpolate_between (a b lo hi r : Z) :
  lo <= a <= hi -> lo <= b <= hi -> 0 <= r < 4 ->
  (inject_Z lo
   <= inject_Z a + (inject_Z r / 4) * (inject_Z b - inject_Z a)
   <= inject_Z hi)%Q.
Proof.
  intros Ha Hb Hr.
  assert (Hla : (inject_Z lo <= inject_Z a)%Q) by (rewrite <- Zle_Qle; lia).
  assert (Hah : (inject_Z a <= inject_Z hi)%Q) by (rewrite <- Zle_Qle; lia).
  assert (Hlb : (inject_Z lo <= inject_Z b)%Q) by (rewrite <- Zle_Qle; lia).
  assert (Hbh : (inject_Z b <= inject_Z hi)%Q) by (rewrite <- Zle_Qle; lia).
  assert (Hcases : r = 0 \/ r = 1 \/ r = 2 \/ r = 3) by lia.
  destruct Hcases as [-> | [-> | [-> | ->]]];
    generalize dependent (inject_Z lo); generalize dependent (inject_Z hi);
    generalize dependent (inject_Z a); generalize dependent (inject_Z b);
    intros; split; unfold Qdiv;
    change (inject_Z 0) with 0%Q; change (inject_Z 1) with 1%Q;
    change (inject_Z 2) with 2%Q; change (inject_Z 3) with 3%Q;
    change (/ 4)%Q with (1 # 4)%Q; lra.
Qed.

(** Every quartile of a non-empty column is reported and lies between the
    reported minimum and maximum. *)
Lemma quartile_spec (num : Z) (l : list Z) :
  l <> [] ->
  exists q lo hi,
    quartile num l = Some q /\ min_Z l = Some lo /\ max_Z l = Some hi
    /\ (inject_Z lo <= q <= inject_Z hi)%Q.
Proof.
  intros Hne. unfold quartile.
  destruct (sort_Z l) as [|x0 s] eqn:Es.
  - destruct l as [|a l]; [congruence|].
    assert (Hin : In a (sort_Z (a :: l))) by (apply sort_Z_In; now left).
    rewrite Es in Hin. destruct Hin.
  - assert (Hx0 : In x0 (x0 :: s)) by now left.
    set (pos := num * (Z.of_nat (List.length (x0 :: s)) - 1)).
    set (lo := Z.to_nat (pos / 4)).
    assert (Ha : In (nth lo (x0 :: s) x0) l).
    { rewrite <- sort_Z_In, Es. now apply nth_In_default. }
    assert (Hb : In (nth (S lo) (x0 :: s) (nth lo (x0 :: s) x0)) l).
    { rewrite <- sort_Z_In, Es. apply nth_In_default.
      now apply nth_In_default. }
    destruct (min_max_spec l _ Ha) as (mn & mx & Hmn & Hmx & _ & _ & Hra).
    destruct (min_max_spec l _ Hb) as (mn' & mx' & Hmn' & Hmx' & _ & _ & Hrb).
    rewrite Hmn in Hmn'. rewrite Hmx in Hmx'.
    injection Hmn' as <-. injection Hmx' as <-.
    eexists _, mn, mx.
    split; [reflexivity|]. split; [assumption|]. split; [assumption|].
    apply interpolate_between; auto. apply Z.mod_pos_bound. lia.
Qed.

Lemma variance_reported (l : list Z) :
  variance l = None <-> (List.length l <= 1)%nat.
Proof.
  unfold variance, mean. destruct l as [|a [|b l]]; simpl; split;
    try reflexivity; try lia; try discriminate.
Qed.

Lemma insert_Z_sorted (x : Z) (l : list Z) :
  Sorted Z.le l -> Sorted Z.le (insert_Z x l).
Proof.
  induction l as [|a l IH]; simpl; intros Hs.
  - repeat constructor.
  - destruct (x <=? a) eqn:E.
    + constructor; [assumption|]. constructor. lia.
    + inversion Hs as [|? ? Hs' Hhd]; subst.
      constructor; [auto|].
      destruct l as [|b l]; simpl.
      * constructor. lia.
      * destruct (x <=? b); constructor; [lia|]. now inversion Hhd.
Qed.

Lemma sort_Z_sorted (l : list Z) : StronglySorted Z.le (sort_Z l).
Proof.
  apply Sorted_StronglySorted.
  - intros a b c. lia.
  - induction l as [|a l IH]; simpl; [constructor|].
    now apply insert_Z_sorted.
Qed.

Lemma sorted_nth_le (s : list Z) (d : Z) (i j : nat) :
  StronglySorted Z.le s -> (i <= j)%nat -> (j < List.length s)%nat ->
  nth i s d <= nth j s d.
Proof.
  intros Hs. revert i j.
  induction Hs as [|a s Hs IH Hall]; simpl; intros i j Hij Hj; [lia|].
  destruct i as [|i], j as [|j]; try lia.
  - rewrite Forall_forall in Hall. apply Hall, nth_In. lia.
  - apply IH; lia.
Qed.

Lemma interpolate_mono (a b r r' : Z) :
  a <= b -> 0 <= r <= r' -> r' < 4 ->
  (inject_Z a + (inject_Z r / 4) * (inject_Z b - inject_Z a)
   <= inject_Z a + (inject_Z r' / 4) * (inject_Z b - inject_Z a))%Q.
Proof.
  intros Hab Hr Hr'.
  assert (Hq : (inject_Z a <= inject_Z b)%Q) by (rewrite <- Zle_Qle; lia).
  assert (Hc : (r = 0 \/ r = 1 \/ r = 2 \/ r = 3)
               /\ (r' = 0 \/ r' = 1 \/ r' = 2 \/ r' = 3)) by lia.
  generalize dependent (inject_Z a). generalize dependent (inject_Z b).
  intros qb qa Hq.
  destruct Hc as [[-> | [-> | [-> | ->]]] [-> | [-> | [-> | ->]]]];
    try lia; unfold Qdiv;
    change (inject_Z 0) with 0%Q; change (inject_Z 1) with 1%Q;
    change (inject_Z 2) with 2%Q; change (inject_Z 3) with 3%Q;
    change (/ 4)%Q with (1 # 4)%Q; lra.
Qed.

(** A quartile of higher order is not smaller. *)
Lemma quartile_mono (num num' : Z) (l : list Z) (q q' : Q) :
  0 <= num <= num' -> num' <= 3 ->
  quartile num l = Some q -> quartile num' l = Some q' -> (q <= q')%Q.
Proof.
  intros Hnum Hnum'. unfold quartile.
  pose proof (sort_Z_sorted l) as Hs.
  destruct (sort_Z l) as [|x0 s] eqn:Es; [discriminate|].
  set (n := Z.of_nat (List.length (x0 :: s))).
  assert (Hn : 1 <= n) by (unfold n; simpl List.length; lia).
  set (pos := num * (n - 1)). set (pos' := num' * (n - 1)).
  assert (Hpos : 0 <= pos <= pos') by (unfold pos, pos'; nia).
  assert (Hpos' : pos' <= 3 * (n - 1)) by (unfold pos'; nia).
  pose proof (Z.div_mod pos 4 ltac:(lia)) as Hdm.
  pose proof (Z.div_mod pos' 4 ltac:(lia)) as Hdm'.
  pose proof (Z.mod_pos_bound pos 4 ltac:(lia)) as Hr.
  pose proof (Z.mod_pos_bound pos' 4 ltac:(lia)) as Hr'.
  assert (Hlo : 0 <= pos / 4 <= pos' / 4) by lia.
  assert (Hlo' : pos' / 4 < n) by lia.
  set (lo := Z.to_nat (pos / 4)). set (lo' := Z.to_nat (pos' / 4)).
  assert (Hlen : (lo' < List.length (x0 :: s))%nat) by (unfold lo', n in *; lia).
  assert (Hll : (lo <= lo')%nat) by (unfold lo, lo'; lia).
  assert (Hab : forall i, (i < List.length (x0 :: s))%nat ->
                          nth i (x0 :: s) x0
                          <= nth (S i) (x0 :: s) (nth i (x0 :: s) x0)).
  { intros i Hi.
    destruct (Nat.lt_ge_cases (S i) (List.length (x0 :: s))) as [Hlt|Hge].
    - rewrite (nth_indep _ _ x0 Hlt). apply sorted_nth_le; auto.
    - rewrite (nth_overflow _ _ Hge). lia. }
  intros Eq Eq'. injection Eq as <-. injection Eq' as <-.
  fold n pos pos' lo lo'.
  set (a := nth lo (x0 :: s) x0). set (b := nth (S lo) (x0 :: s) a).
  set (a' := nth lo' (x0 :: s) x0). set (b' := nth (S lo') (x0 :: s) a').
  assert (Ha : a <= b) by (apply Hab; lia).
  assert (Ha' : a' <= b') by (apply Hab; lia).
  destruct (interpolate_between a b a b (pos mod 4)) as [_ Hup]; try lia.
  destruct (interpolate_between a' b' a' b' (pos' mod 4)) as [Hdown _];
    try lia.
  destruct (Nat.eq_dec lo lo') as [Heq|Hne].
  - unfold a', b', a'. rewrite <- Heq. fold a. fold b.
    apply interpolate_mono; [exact Ha | | lia].
    unfold lo, lo' in Heq. lia.
  - assert (Hlt : (S lo <= lo')%nat) by lia.
    apply Qle_trans with (inject_Z b); [exact Hup|].
    apply Qle_trans with (inject_Z a'); [|exact Hdown].
    rewrite <- Zle_Qle. unfold b. rewrite (nth_indep _ _ x0) by lia.
    apply sorted_nth_le; auto.
Qed.

Lemma sum_Z_bounds (l : list Z) (lo hi : Z) :
  (forall x, In x l -> lo <= x <= hi) ->
  lo * Z.of_nat (List.length l) <= sum_Z l <= hi * Z.of_nat (List.length l).
Proof.
  induction l as [|a l IH]; intros Hall; [simpl; lia|].
  assert (Ha : lo <= a <= hi) by (apply Hall; now left).
  assert (Hl : forall x, In x l -> lo <= x <= hi)
    by (intros x Hx; apply Hall; now right).
  specialize (IH Hl). change (sum_Z (a :: l)) with (a + sum_Z l).
  rewrite length_cons, Nat2Z.inj_succ. nia.
Qed.

(** The mean lies between the bounds of the values. *)
Lemma mean_bounds (l : list Z) (lo hi : Z) (m : Q) :
  (forall x, In x l -> lo <= x <= hi) ->
  mean l = Some m -> (inject_Z lo <= m <= inject_Z hi)%Q.
Proof.
  intros Hall. pose proof (sum_Z_bounds l lo hi Hall) as Hsum.
  destruct l as [|a l]; [discriminate|]. unfold mean.
  intros Em. injection Em as <-.
  set (n := Z.of_nat (List.length (a :: l))) in *.
  assert (Hn : (0 < inject_Z n)%Q).
  { change 0%Q with (inject_Z 0). rewrite <- Zlt_Qlt. unfold n. simpl. lia. }
  split.
  - apply Qle_shift_div_l; [exact Hn|].
    rewrite <- inject_Z_mult, <- Zle_Qle.
    unfold n in Hsum. simpl in Hsum |- *. lia.
  - apply Qle_shift_div_r; [exact Hn|].
    rewrite <- inject_Z_mult, <- Zle_Qle.
    unfold n in Hsum. simpl in Hsum |- *. lia.
Qed.

Lemma Qsquare_nonneg (q : Q) : (0 <= q * q)%Q.
Proof. destruct q as [n d]. unfold Qle. simpl. nia. Qed.

Lemma sum_squares_nonneg (m : Q) (l : list Z) :
  (0 <= fold_right (fun x acc =>
                      ((inject_Z x - m) * (inject_Z x - m) + acc)%Q) 0%Q l)%Q.
Proof.
  induction l as [|a l IH]; simpl; [apply Qle_refl|].
  pose proof (Qsquare_nonneg (inject_Z a - m)) as Hsq.
  generalize dependent (fold_right
    (fun x acc => ((inject_Z x - m) * (inject_Z x - m) + acc)%Q) 0%Q l).
  intros acc Hacc.
  generalize dependent ((inject_Z a - m) * (inject_Z a - m))%Q.
  intros sq Hsq. lra.
Qed.

(** The variance is not negative. *)
Lemma variance_nonneg (l : list Z) (v : Q) :
  variance l = Some v -> (0 <= v)%Q.
Proof.
  unfold variance. destruct (mean l) as [m|]; [|discriminate].
  destruct (List.length l <=? 1)%nat eqn:E; [discriminate|].
  intros [= <-]. apply Nat.leb_gt in E.
  apply Qle_shift_div_l.
  - change 0%Q with (inject_Z 0). rewrite <- Zlt_Qlt. lia.
  - rewrite Qmult_0_l. apply sum_squares_nonneg.
Qed.

Lemma insert_Z_perm (x : Z) (l : list Z) :
  Permutation (insert_Z x l) (x :: l).
Proof.
  induction l as [|a l IH]; simpl; [reflexivity|].
  destruct (x <=? a); [reflexivity|]. rewrite IH. apply perm_swap.
Qed.

Lemma sort_Z_perm (l : list Z) : Permutation (sort_Z l) l.
Proof.
  induction l as [|a l IH]; simpl; [reflexivity|].
  rewrite insert_Z_perm. now constructor.
Qed.

(** A quartile is the value at its rank in the sorted values. *)
Lemma quartile_rank (k : Z) (l : list Z) :
  0 <= k <= 3 -> l <> [] ->
  quartile k l = Some (rank_between k (sort_Z l)).
Proof.
  intros Hk Hne. unfold quartile, rank_between.
  destruct (sort_Z l) as [|x0 s] eqn:Es.
  - destruct l as [|a l]; [congruence|].
    assert (Hin : In a (sort_Z (a :: l))) by (apply sort_Z_In; now left).
    rewrite Es in Hin. destruct Hin.
  - set (S0 := x0 :: s). set (n := List.length S0).
    assert (Hn : (1 <= n)%nat) by (unfold n, S0; simpl; lia).
    set (pos := k * (Z.of_nat n - 1)).
    assert (Hpos : 0 <= pos <= 3 * (Z.of_nat n - 1)) by (unfold pos; nia).
    pose proof (Z.div_mod pos 4 ltac:(lia)) as Hdm.
    pose proof (Z.mod_pos_bound pos 4 ltac:(lia)) as Hr.
    set (lo := Z.to_nat (pos / 4)).
    assert (Hlo : (lo < n)%nat) by (unfold lo; lia).
    assert (Ea : nth lo S0 x0 = nth lo S0 0) by (apply nth_indep; exact Hlo).
    assert (Eb : nth (S lo) S0 (nth lo S0 x0)
                 = nth (Nat.min (S lo) (n - 1)) S0 0).
    { destruct (Nat.lt_ge_cases (S lo) n) as [Hlt|Hge].
      - rewrite Nat.min_l by lia. apply nth_indep. exact Hlt.
      - rewrite nth_overflow by exact Hge.
        replace (Nat.min (S lo) (n - 1)) with lo by lia. exact Ea. }
    cbv zeta. rewrite Eb, Ea. reflexivity.
Qed.

(** The variance is the sum of the squared deviations from the mean, divided
    by the number of values less one. *)
Lemma variance_spec (l : list Z) :
  match variance l with
  | Some var =>
      exists m, mean l = Some m
                /\ (var * inject_Z (Z.of_nat (List.length l) - 1)
                    == fold_right (fun x acc =>
                                     ((inject_Z x - m) * (inject_Z x - m)
                                      + acc)%Q) 0%Q l)%Q
  | None => (List.length l <= 1)%nat
  end.
Proof.
  unfold variance. destruct (mean l) as [m|] eqn:Em.
  - destruct (List.length l <=? 1)%nat eqn:E.
    + now apply Nat.leb_le.
    + apply Nat.leb_gt in E. exists m. split; [reflexivity|].
      rewrite Qmult_comm. apply Qmult_div_r.
      unfold Qeq. simpl. lia.
  - destruct l; [simpl; lia | discriminate].
Qed.

(** The standard deviation is the square root of the variance that is not
    negative. *)
Lemma std_spec (l : list Z) :
  match std l, variance l with
  | Some sd, Some var => (0 <= sd)%R /\ (sd * sd)%R = Q2R var
  | None, None => True
  | _, _ => False
  end.
Proof.
  unfold std. destruct (variance l) as [var|] eqn:E; [|exact I].
  split; [apply sqrt_pos|]. apply sqrt_sqrt.
  replace 0%R with (Q2R 0) by (unfold Q2R; simpl; apply Rmult_0_l).
  apply Qle_Rle. exact (variance_nonneg l var E).
Qed.

(** ** Verification of the daily totals *)

Lemma cell_ne0_spec (c : option Z) : cell_ne0 c = true <-> c <> Some 0.
Proof.
  destruct c as [[|p|p]|]; simpl; split; try congruence; try discriminate.
Qed.

Lemma cell_ne0_opp (c : option Z) : cell_ne0 (cell_opp c) = cell_ne0 c.
Proof. destruct c as [[|p|p]|]; reflexivity. Qed.

Lemma cell_sub_swap (a b : option Z) : cell_sub b a = cell_opp (cell_sub a b).
Proof. destruct a, b; simpl; try reflexivity. f_equal. lia. Qed.

Section VerificationFacts.
Context {K : Type} `{KeyOrder K}.

Lemma verification_df_dates (fsum ssum : Series K) :
  map vdate (verification_df fsum ssum)
  = index_union (index fsum) (index ssum).
Proof.
  unfold verification_df. rewrite map_map. simpl. apply map_id.
Qed.

Lemma verification_df_In (fsum ssum : Series K) (r : VRow K) :
  In r (verification_df fsum ssum)
  <-> (In (vdate r) (index fsum) \/ In (vdate r) (index ssum))
      /\ r = mkVRow (vdate r) (get fsum (vdate r)) (get ssum (vdate r))
                   (cell_sub (get fsum (vdate r)) (get ssum (vdate r))).
Proof.
  unfold verification_df. rewrite in_map_iff. split.
  - intros (d & <- & Hd). simpl. apply index_union_In in Hd. auto.
  - intros (Hd & Hr). exists (vdate r). split; [now symmetry|].
    now apply index_union_In.
Qed.

(** C1, as the script has it: a date found in one series only has a missing
    total on the other side and a missing difference, and the row is one of
    the mismatches. *)
Theorem absent_side_is_missing (present absent : Series K) (d : K) (v : Z) :
  get present d = Some v ->
  get absent d = None ->
  In (mkVRow d (Some v) None None) (verification_df present absent)
  /\ In (mkVRow d (Some v) None None) (mismatches present absent)
  /\ In (mkVRow d None (Some v) None) (verification_df absent present)
  /\ In (mkVRow d None (Some v) None) (mismatches absent present).
Proof.
  intros Hp Ha.
  assert (Hd : In d (index present)) by (apply get_index; eauto).
  assert (H1 : In (mkVRow d (Some v) None None)
                  (verification_df present absent)).
  { apply verification_df_In. simpl. rewrite Hp, Ha. auto. }
  assert (H2 : In (mkVRow d None (Some v) None)
                  (verification_df absent present)).
  { apply verification_df_In. simpl. rewrite Hp, Ha. auto. }
  unfold mismatches. rewrite !filter_In. auto.
Qed.

(** C3: a series reconciled with itself shows a zero difference on every
    date and no mismatch. *)
Theorem reconcile_self (X : Series K) :
  map vdate (verification_df X X) = index X
  /\ (forall r, In r (verification_df X X) -> difference r = Some 0)
  /\ mismatches X X = []
  /\ mismatch_count X X = 0%nat.
Proof.
  split; [now rewrite verification_df_dates, index_union_diag|].
  assert (Hzero : forall r, In r (verification_df X X) ->
                            difference r = Some 0).
  { intros r Hr. apply verification_df_In in Hr. destruct Hr as [Hd ->].
    simpl. assert (Hin : In (vdate r) (index X)) by tauto.
    apply get_index in Hin. destruct Hin as [v ->]. simpl. f_equal. lia. }
  assert (Hnone : mismatches X X = []).
  { unfold mismatches.
    induction (verification_df X X) as [|r l IH]; [reflexivity|]. simpl.
    unfold mismatched at 1. rewrite (Hzero r (or_introl eq_refl)). simpl.
    apply IH. intros r' Hr'. apply Hzero. now right. }
  unfold mismatch_count. rewrite Hnone. auto.
Qed.

(** C4: exchanging the two series negates every difference and keeps every
    matched flag. *)
Theorem reconcile_swap (fsum ssum : Series K) :
  verification_df ssum fsum = map swap_sides (verification_df fsum ssum)
  /\ forall r : VRow K,
       vdate (swap_sides r) = vdate r
       /\ difference (swap_sides r) = cell_opp (difference r)
       /\ matched (swap_sides r) = matched r.
Proof.
  split.
  - unfold verification_df. rewrite map_map, index_union_comm.
    apply map_ext. intros d. unfold swap_sides. simpl.
    now rewrite cell_sub_swap.
  - intros r. repeat split.
    unfold matched, mismatched, swap_sides. simpl. now rewrite cell_ne0_opp.
Qed.
End VerificationFacts.

(** C1, as the spec words it, fails: the absent side and the difference are
    missing rather than 0 and 50. *)
Lemma absent_side_is_not_zero :
  verification_df [(d_2023_01_01, 50)] []
  = [mkVRow d_2023_01_01 (Some 50) None None]
  /\ ~ In (mkVRow d_2023_01_01 (Some 50) (Some 0) (Some 50))
          (verification_df [(d_2023_01_01, 50)] []).
Proof.
  split; [reflexivity|]. simpl. intros [E|[]]. discriminate E.
Qed.

Lemma absent_side_is_missing_witness :
  In (mkVRow d_2023_01_01 (Some 50) None None)
     (verification_df [(d_2023_01_01, 50)] [])
  /\ In (mkVRow d_2023_01_01 (Some 50) None None)
        (mismatches [(d_2023_01_01, 50)] [])
  /\ In (mkVRow d_2023_01_01 None (Some 50) None)
        (verification_df [] [(d_2023_01_01, 50)])
  /\ In (mkVRow d_2023_01_01 None (Some 50) None)
        (mismatches [] [(d_2023_01_01, 50)]).
Proof.
  apply (absent_side_is_missing [(d_2023_01_01, 50)] [] d_2023_01_01 50);
    reflexivity.
Defined.

(** ** The report on the differences *)

Lemma filter_map_length {A B} (p : B -> bool) (f : A -> B) (l : list A) :
  List.length (filter p (map f l))
  = List.length (filter (fun a => p (f a)) l).
Proof.
  induction l as [|a l IH]; simpl; [reflexivity|].
  destruct (p (f a)); simpl; now rewrite IH.
Qed.

Section ReportFacts.
Context {K : Type} `{KeyOrder K}.

(** C2: for two daily series whose totals float64 holds exactly, every
    date of the union of the two indexes has its row; a row is a mismatch
    exactly when its difference is not zero, whatever its size;
    [mismatch_count] counts these dates; the preview is the first ten
    mismatches at most; and the description of the [difference] column gives
    its count, its mean (the sum over the count), its standard deviation (the
    square root of the variance, which is the sum of the squared deviations
    from the mean over the count less one), its minimum, its quartiles (the
    values at ranks (n-1)/4, 2(n-1)/4 and 3(n-1)/4 of the sorted differences,
    interpolated linearly) and its maximum. *)
Theorem reconcile_report (fsum ssum : Series K) :
  float_exact fsum -> float_exact ssum ->
  let v := verification_df fsum ssum in
  let diffs := dropna (map difference v) in
  let D := describe_difference v in
  (forall d, In d (map vdate v) <-> In d (index fsum) \/ In d (index ssum))
  /\ (forall r, In r (mismatches fsum ssum)
                <-> In r v /\ difference r <> Some 0)
  /\ mismatch_count fsum ssum
     = List.length
         (filter (fun d => cell_ne0 (cell_sub (get fsum d) (get ssum d)))
                 (index_union (index fsum) (index ssum)))
  /\ (List.length (mismatch_preview fsum ssum)
      = Nat.min 10 (mismatch_count fsum ssum)
      /\ exists rest,
           mismatches fsum ssum = mismatch_preview fsum ssum ++ rest)
  /\ d_count D = List.length diffs
  /\ (forall x, In x diffs <-> exists r, In r v /\ difference r = Some x)
  /\ match d_mean D with
     | Some m => (m * inject_Z (Z.of_nat (d_count D)) == inject_Z (sum_Z diffs))%Q
     | None => diffs = []
     end
  /\ match d_variance D with
     | Some var =>
         exists m, d_mean D = Some m
                   /\ (var * inject_Z (Z.of_nat (d_count D) - 1)
                       == fold_right (fun x acc =>
                                        ((inject_Z x - m) * (inject_Z x - m)
                                         + acc)%Q) 0%Q diffs)%Q
     | None => (d_count D <= 1)%nat
     end
  /\ match std_difference v, d_variance D with
     | Some sd, Some var => (0 <= sd)%R /\ (sd * sd)%R = Q2R var
     | None, None => True
     | _, _ => False
     end
  /\ (d_variance D = None <-> (d_count D <= 1)%nat)
  /\ (diffs <> [] ->
      exists sorted,
        Permutation sorted diffs /\ StronglySorted Z.le sorted
        /\ d_q25 D = Some (rank_between 1 sorted)
        /\ d_q50 D = Some (rank_between 2 sorted)
        /\ d_q75 D = Some (rank_between 3 sorted))
  /\ (forall x, In x diffs ->
        exists lo hi q1 q2 q3,
          d_min D = Some lo /\ d_max D = Some hi
          /\ In lo diffs /\ In hi diffs /\ lo <= x <= hi
          /\ d_q25 D = Some q1 /\ d_q50 D = Some q2 /\ d_q75 D = Some q3
          /\ (inject_Z lo <= q1 <= inject_Z hi)%Q
          /\ (inject_Z lo <= q2 <= inject_Z hi)%Q
          /\ (inject_Z lo <= q3 <= inject_Z hi)%Q).
Proof.
  intros _ _ v diffs D.
  split; [|split; [|split; [|split; [|split; [|split; [|split; [|split;
    [|split; [|split; [|split]]]]]]]]]].
  - intros d. unfold v. rewrite verification_df_dates. apply index_union_In.
  - intros r. unfold mismatches. rewrite filter_In.
    unfold mismatched. now rewrite cell_ne0_spec.
  - unfold mismatch_count, mismatches, verification_df.
    now rewrite filter_map_length.
  - split.
    + unfold mismatch_preview, mismatch_count. apply length_firstn.
    + exists (skipn 10 (mismatches fsum ssum)). unfold mismatch_preview.
      now rewrite firstn_skipn.
  - reflexivity.
  - intros x. unfold diffs. rewrite dropna_In, in_map_iff.
    split; intros (r & Hr); exists r; tauto.
  - exact (mean_spec diffs).
  - exact (variance_spec diffs).
  - exact (std_spec diffs).
  - exact (variance_reported diffs).
  - intros Hne. exists (sort_Z diffs).
    split; [apply sort_Z_perm|]. split; [apply sort_Z_sorted|].
    unfold D, describe_difference, verification_describe, describe.
    cbn [snd d_q25 d_q50 d_q75]. fold v. fold diffs.
    repeat split; apply quartile_rank; auto; lia.
  - intros x Hx.
    assert (Hne : diffs <> []) by (intros E; rewrite E in Hx; destruct Hx).
    destruct (min_max_spec diffs x Hx) as (lo & hi & Hlo & Hhi & Il & Ih & Hr).
    destruct (quartile_spec 1 diffs Hne) as (q1 & lo1 & hi1 & Hq1 & L1 & H1 & B1).
    destruct (quartile_spec 2 diffs Hne) as (q2 & lo2 & hi2 & Hq2 & L2 & H2 & B2).
    destruct (quartile_spec 3 diffs Hne) as (q3 & lo3 & hi3 & Hq3 & L3 & H3 & B3).
    rewrite Hlo in L1, L2, L3. rewrite Hhi in H1, H2, H3.
    injection L1 as <-. injection L2 as <-. injection L3 as <-.
    injection H1 as <-. injection H2 as <-. injection H3 as <-.
    exists lo, hi, q1, q2, q3. repeat (split; [assumption|]). assumption.
Qed.
End ReportFacts.

(** ** Totals by day, month and year *)

Lemma sum_rows_ext {R} (p q : R -> bool) (val : R -> Z) (rs : list R) :
  (forall r, p r = q r) -> sum_rows p val rs = sum_rows q val rs.
Proof.
  intros E. induction rs as [|r rs IH]; simpl; [reflexivity|].
  now rewrite E, IH.
Qed.

Lemma get_int64 {K} `{KeyOrder K} (s : Series K) (k : K) :
  Forall (fun e => wrap64 (snd e) = snd e) s ->
  wrap64 (match get s k with Some t => t | None => 0 end)
  = match get s k with Some t => t | None => 0 end.
Proof.
  intros Hs. destruct (get s k) as [t|] eqn:E; [|reflexivity].
  apply get_In in E. rewrite Forall_forall in Hs. exact (Hs _ E).
Qed.

(** The total read at [k] in a grouped sum is the int64 sum of the rows whose
    key is [k], and nothing is read where no row has this key. *)
Lemma groupby_sum_get {K} `{KeyOrder K} {R} (key : R -> option K)
    (val : R -> Z) (rs : list R) (k : K) :
  match get (groupby_sum key val rs) k with
  | Some t => t
  | None => 0
  end
  = wrap64 (sum_rows (fun r => match key r with
                               | Some k' => key_eqb k k'
                               | None => false
                               end) val rs).
Proof.
  rewrite <- groupby_sum_sum_where.
  rewrite sum_where_get by apply groupby_sum_ascending.
  symmetry. apply get_int64, groupby_sum_int64.
Qed.

(** Without overflow it is their exact sum. *)
Lemma groupby_sum_get_exact {K} `{KeyOrder K} {R} (key : R -> option K)
    (val : R -> Z) (rs : list R) (k : K) :
  no_overflow val rs ->
  match get (groupby_sum key val rs) k with
  | Some t => t
  | None => 0
  end
  = sum_rows (fun r => match key r with
                       | Some k' => key_eqb k k'
                       | None => false
                       end) val rs.
Proof.
  intros Hb. rewrite <- sum_where_get by apply groupby_sum_ascending.
  now apply groupby_sum_sum_where_exact.
Qed.

Lemma daily_sum_sorted (df : Frame (option Timestamp)) :
  sort_index (groupby_date df) = groupby_date df.
Proof. apply sort_index_ascending, groupby_sum_ascending. Qed.

(** The days of a month add up, in int64, to the month. *)
Lemma month_of_days (df : Frame (option Timestamp)) (m : Period) :
  wrap64 (sum_where (fun d => key_eqb m (to_period_M d)) (groupby_date df))
  = match get (groupby_month df) m with Some t => t | None => 0 end.
Proof.
  unfold groupby_month, groupby_date.
  rewrite groupby_sum_get, groupby_sum_sum_where. f_equal.
  apply sum_rows_ext. intros r. now destruct (date r).
Qed.

(** The months of a year add up, in int64, to the year. *)
Lemma year_of_months (df : Frame (option Timestamp)) (y : Z) :
  wrap64 (sum_where (fun p => key_eqb y (p_year p)) (groupby_month df))
  = match get (groupby_year df) y with Some t => t | None => 0 end.
Proof.
  unfold groupby_month, groupby_year.
  rewrite groupby_sum_get, groupby_sum_sum_where. f_equal.
  apply sum_rows_ext. intros r. now destruct (date r).
Qed.

Lemma month_of_days_exact (df : Frame (option Timestamp)) (m : Period) :
  no_overflow daily (rows df) ->
  sum_where (fun d => key_eqb m (to_period_M d)) (groupby_date df)
  = match get (groupby_month df) m with Some t => t | None => 0 end.
Proof.
  intros Hb. unfold groupby_month, groupby_date.
  rewrite groupby_sum_get_exact, groupby_sum_sum_where_exact by assumption.
  apply sum_rows_ext. intros r. now destruct (date r).
Qed.

Lemma year_of_months_exact (df : Frame (option Timestamp)) (y : Z) :
  no_overflow daily (rows df) ->
  sum_where (fun p => key_eqb y (p_year p)) (groupby_month df)
  = match get (groupby_year df) y with Some t => t | None => 0 end.
Proof.
  intros Hb. unfold groupby_month, groupby_year.
  rewrite groupby_sum_get_exact, groupby_sum_sum_where_exact by assumption.
  apply sum_rows_ext. intros r. now destruct (date r).
Qed.

Lemma months_of_days_index (df : Frame (option Timestamp)) (m : Period) :
  In m (index (groupby_month df))
  <-> exists d, In d (index (groupby_date df)) /\ to_period_M d = m.
Proof.
  unfold groupby_month, groupby_date. rewrite groupby_sum_index. split.
  - intros (r & Hr & Hk). destruct (date r) as [d|] eqn:Ed; [|discriminate].
    exists d. split; [|simpl in Hk; congruence].
    apply groupby_sum_index. eauto.
  - intros (d & Hd & <-). apply groupby_sum_index in Hd.
    destruct Hd as (r & Hr & Hk). exists r. now rewrite Hk.
Qed.

Lemma years_of_months_index (df : Frame (option Timestamp)) (y : Z) :
  In y (index (groupby_year df))
  <-> exists p, In p (index (groupby_month df)) /\ p_year p = y.
Proof.
  unfold groupby_month, groupby_year. rewrite groupby_sum_index. split.
  - intros (r & Hr & Hk). destruct (date r) as [d|] eqn:Ed; [|discriminate].
    exists (to_period_M d). split; [|unfold dt_year in Hk; simpl in *; congruence].
    apply groupby_sum_index. exists r. now rewrite Ed.
  - intros (p & Hp & <-). apply groupby_sum_index in Hp.
    destruct Hp as (r & Hr & Hk). exists r. split; [assumption|].
    destruct (date r); [|discriminate]. simpl in Hk. injection Hk as <-.
    reflexivity.
Qed.

Lemma groupby_consistent_periods (df : Frame (option Timestamp)) :
  consistent_periods (groupby_date df) (groupby_month df) (groupby_year df).
Proof.
  split.
  - intros m. split; [apply months_of_days_index | apply month_of_days].
  - intros y. split; [apply years_of_months_index | apply year_of_months].
Qed.

Lemma groupby_exact_periods (df : Frame (option Timestamp)) :
  no_overflow daily (rows df) ->
  exact_periods (groupby_date df) (groupby_month df) (groupby_year df).
Proof.
  intros Hb. split.
  - intros m. now apply month_of_days_exact.
  - intros y. now apply year_of_months_exact.
Qed.

(** C7: in both data sets, a month has a total exactly when one of its days
    has one, and the daily totals of its days, added as the script adds (in
    int64), give it; a year has a total exactly when one of its months has
    one, and the monthly totals of its months add up to it in the same way.
    When the counts of the file are too small for an int64 sum to overflow,
    the sums are exact. *)
Theorem period_totals_consistent (facility state : Frame (option Timestamp)) :
  (consistent_periods (facility_daily_sum facility)
                      (facility_monthly facility)
                      (yearly_facility facility)
   /\ (no_overflow daily (rows facility) ->
       exact_periods (facility_daily_sum facility)
                     (facility_monthly facility)
                     (yearly_facility facility)))
  /\ (consistent_periods (state_daily_sum state)
                         (state_monthly state)
                         (yearly_state state)
      /\ (no_overflow daily (rows state) ->
          exact_periods (state_daily_sum state)
                        (state_monthly state)
                        (yearly_state state))).
Proof.
  unfold facility_daily_sum, state_daily_sum. rewrite !daily_sum_sorted.
  split; (split; [apply groupby_consistent_periods
                 | apply groupby_exact_periods]).
Qed.

Lemma key_eqb_string (h h' : string) : key_eqb h h' = String.eqb h h'.
Proof.
  unfold key_eqb. change (kcmp h h') with (String.compare h h').
  destruct (String.eqb_spec h h') as [->|Hne].
  - now rewrite string_compare_refl.
  - destruct (String.compare h h') eqn:E; auto.
    now apply String.compare_eq_iff in E.
Qed.

(** ** Totals by hospital *)

Section SortValues.
Context {K : Type} `{KeyOrder K}.

Lemma insert_by_value_desc_perm (e : K * Z) (s : Series K) :
  Permutation (insert_by_value_desc e s) (e :: s).
Proof.
  induction s as [|a s IH]; simpl; [reflexivity|].
  destruct (snd a <=? snd e); [reflexivity|].
  rewrite IH. apply perm_swap.
Qed.

Lemma sort_values_desc_perm (s : Series K) :
  Permutation (sort_values_desc s) s.
Proof.
  induction s as [|a s IH]; simpl; [reflexivity|].
  rewrite insert_by_value_desc_perm. now constructor.
Qed.

Lemma insert_by_value_desc_sorted (e : K * Z) (s : Series K) :
  Sorted (fun a b => snd b <= snd a) s ->
  Sorted (fun a b => snd b <= snd a) (insert_by_value_desc e s).
Proof.
  induction s as [|a s IH]; simpl; intros Hs.
  - repeat constructor.
  - destruct (snd a <=? snd e) eqn:E.
    + constructor; [assumption|]. constructor. lia.
    + inversion Hs as [|? ? Hs' Hhd]; subst.
      constructor; [auto|].
      destruct s as [|b s]; simpl.
      * constructor. lia.
      * destruct (snd b <=? snd e); constructor; [lia|].
        now inversion Hhd.
Qed.

Lemma sort_values_desc_sorted (s : Series K) :
  StronglySorted (fun a b => snd b <= snd a) (sort_values_desc s).
Proof.
  apply Sorted_StronglySorted.
  - intros a b c. lia.
  - induction s as [|a s IH]; simpl; [constructor|].
    now apply insert_by_value_desc_sorted.
Qed.

Lemma ascending_NoDup (l : list K) : ascending l -> NoDup l.
Proof.
  unfold ascending. induction 1 as [|a l Hs IH Hall]; constructor; auto.
  intros Hin. rewrite Forall_forall in Hall. specialize (Hall a Hin).
  now rewrite kcmp_refl in Hall.
Qed.

(** An entry of a grouped sum: a key carried by some row, with the int64 sum
    of the rows that carry it. *)
Lemma groupby_sum_In {R} (key : R -> option K) (val : R -> Z) (rs : list R)
    (k : K) (t : Z) :
  In (k, t) (groupby_sum key val rs)
  <-> (exists r, In r rs /\ key r = Some k)
      /\ t = wrap64 (sum_rows (fun r => match key r with
                                        | Some k' => key_eqb k k'
                                        | None => false
                                        end) val rs).
Proof.
  pose proof (groupby_sum_get key val rs k) as Hget.
  pose proof (groupby_sum_ascending key val rs) as Hasc.
  rewrite <- groupby_sum_index. split.
  - intros Hin. split.
    + apply (in_map fst) in Hin. exact Hin.
    + apply ascending_get in Hin; [|assumption]. now rewrite Hin in Hget.
  - intros [Hk ->]. apply get_index in Hk. destruct Hk as [v Hv].
    rewrite Hv in Hget. subst v. now apply get_In.
Qed.

(** Without overflow, with their exact sum. *)
Lemma groupby_sum_In_exact {R} (key : R -> option K) (val : R -> Z)
    (rs : list R) (k : K) (t : Z) :
  no_overflow val rs ->
  In (k, t) (groupby_sum key val rs)
  <-> (exists r, In r rs /\ key r = Some k)
      /\ t = sum_rows (fun r => match key r with
                                | Some k' => key_eqb k k'
                                | None => false
                                end) val rs.
Proof.
  intros Hb. rewrite groupby_sum_In.
  rewrite wrap64_small; [reflexivity|].
  pose proof (sum_rows_abs (fun r => match key r with
                                     | Some k' => key_eqb k k'
                                     | None => false
                                     end) val rs).
  unfold no_overflow in Hb. lia.
Qed.
End SortValues.

Lemma sum_rows_entity (h : string) (rs : list (Row (option Timestamp))) :
  sum_rows (fun r => match entity r with
                     | Some h' => key_eqb h h'
                     | None => false
                     end) daily rs
  = sum_rows (fun r => match entity r with
                       | Some h' => String.eqb h h'
                       | None => false
                       end) daily rs.
Proof.
  apply sum_rows_ext. intros r. destruct (entity r); auto using key_eqb_string.
Qed.

(** An entry of the totals by hospital, read on the grouped sums. *)
Lemma facility_totals_In (facility : Frame (option Timestamp)) (h : string)
    (t : Z) :
  In (h, t) (facility_totals facility)
  <-> In (h, t) (groupby_sum entity daily (rows facility)).
Proof.
  unfold facility_totals.
  split; apply Permutation_in; [|symmetry]; apply sort_values_desc_perm.
Qed.

(** C9: the totals by hospital add up, as the script adds (in int64), all
    the rows of a hospital, repeated (hospital, date) pairs included, and
    exactly when the counts are too small to overflow; they list every
    hospital once and come in decreasing order of total; the three rows
    (H1, 10), (H1, 20), (H2, 5) give (H1, 30), (H2, 5). *)
Theorem facility_totals_spec :
  facility_totals
    (mkFrame ["date"; "hospital"; "daily"]%string hospital_rows)
  = [("H1"%string, 30); ("H2"%string, 5)]
  /\ forall facility : Frame (option Timestamp),
       StronglySorted (fun a b => snd b <= snd a) (facility_totals facility)
       /\ NoDup (index (facility_totals facility))
       /\ (forall (h : string) (t : Z),
              In (h, t) (facility_totals facility)
              <-> (exists r, In r (rows facility) /\ entity r = Some h)
                  /\ t = wrap64
                           (sum_rows (fun r => match entity r with
                                               | Some h' => String.eqb h h'
                                               | None => false
                                               end) daily (rows facility)))
       /\ (no_overflow daily (rows facility) ->
           forall (h : string) (t : Z),
             In (h, t) (facility_totals facility)
             <-> (exists r, In r (rows facility) /\ entity r = Some h)
                 /\ t = sum_rows (fun r => match entity r with
                                           | Some h' => String.eqb h h'
                                           | None => false
                                           end) daily (rows facility)).
Proof.
  split; [reflexivity|]. intros facility.
  split; [apply sort_values_desc_sorted|].
  split; [|split].
  - unfold facility_totals.
    apply (Permutation_NoDup (l := index (groupby_sum entity daily
                                                      (rows facility)))).
    + apply Permutation_map. symmetry. apply sort_values_desc_perm.
    + apply ascending_NoDup, groupby_sum_ascending.
  - intros h t.
    now rewrite facility_totals_In, groupby_sum_In, sum_rows_entity.
  - intros Hb h t.
    now rewrite facility_totals_In, groupby_sum_In_exact, sum_rows_entity.
Qed.

(** ** Cleaning the two files *)

Lemma ascii_eqb_N (a b : ascii) :
  Ascii.eqb a b = (N_of_ascii a =? N_of_ascii b)%N.
Proof.
  destruct (Ascii.eqb_spec a b) as [->|Hne].
  - now rewrite N.eqb_refl.
  - symmetry. apply N.eqb_neq. intros E. apply Hne.
    now rewrite <- (ascii_N_embedding a), <- (ascii_N_embedding b), E.
Qed.

Lemma N_of_lower_ascii (a : ascii) :
  N_of_ascii (lower_ascii a)
  = if is_upper (N_of_ascii a) then (N_of_ascii a + 32)%N else N_of_ascii a.
Proof.
  unfold lower_ascii, is_upper.
  destruct ((65 <=? N_of_ascii a) && (N_of_ascii a <=? 90))%N eqn:E;
    [|reflexivity].
  apply N_ascii_embedding.
  apply andb_true_iff in E. destruct E as [_ E]. apply N.leb_le in E. lia.
Qed.

(** Lowering two characters makes them equal exactly when they are the same
    letter. *)
Lemma lower_same_letter (a b : ascii) :
  Ascii.eqb (lower_ascii a) (lower_ascii b) = same_letter a b.
Proof.
  rewrite ascii_eqb_N, !N_of_lower_ascii. unfold same_letter, is_upper.
  pose proof (N_ascii_bounded a). pose proof (N_ascii_bounded b).
  generalize dependent (N_of_ascii a). generalize dependent (N_of_ascii b).
  intros n Hn m Hm.
  destruct (N.leb_spec 65 m), (N.leb_spec m 90), (N.leb_spec 65 n),
    (N.leb_spec n 90); simpl;
    repeat match goal with
           | |- context [(?x =? ?y)%N] => destruct (N.eqb_spec x y)
           end; simpl; try reflexivity; lia.
Qed.

Lemma str_lower_eq_ignore_case (s t : string) :
  String.eqb (str_lower s) (str_lower t) = eq_ignore_case s t.
Proof.
  revert t. induction s as [|a s IH]; intros [|b t]; simpl; try reflexivity.
  now rewrite lower_same_letter, IH.
Qed.

(** The mask of the script marks exactly the nationwide rows. *)
Lemma is_malaysia_nationwide {D} (r : Row D) : is_malaysia r = is_nationwide r.
Proof.
  unfold is_malaysia, is_nationwide. destruct (entity r) as [s|]; auto.
  change "malaysia"%string with (str_lower "Malaysia").
  apply str_lower_eq_ignore_case.
Qed.

Lemma without_nationwide_mask {D} (df : Frame D) :
  mkFrame (columns df) (filter (fun r => negb (is_malaysia r)) (rows df))
  = without_nationwide df.
Proof.
  unfold without_nationwide. f_equal. apply filter_ext. intros r.
  now rewrite is_malaysia_nationwide.
Qed.

(** With a [state] column of text, line 34 gives the frame less its
    nationwide rows. *)
Lemma exclude_malaysia_ok {D} (raw : Frame D) :
  has_column "state" raw = true ->
  is_text_column (map entity (rows raw)) = true ->
  exclude_malaysia raw = inr (without_nationwide raw).
Proof.
  intros Hcol Htext. unfold exclude_malaysia. rewrite Hcol, Htext.
  now rewrite without_nationwide_mask.
Qed.


Section CleaningFacts.
Variable infer_reader : string -> string -> option Timestamp.

Lemma facility_df_rows (raw : Frame (option string)) :
  rows (facility_df infer_reader raw)
  = map (clean_row (date_reader infer_reader raw)) (rows raw).
Proof. unfold facility_df, convert_date. simpl. now rewrite map_map. Qed.

(** The cleaned state file: the rows that are not nationwide, read with the
    reader of their own [date] column. *)
Lemma state_df_ok (raw : Frame (option string)) :
  has_column "state" raw = true ->
  is_text_column (map entity (rows raw)) = true ->
  state_df infer_reader raw
  = inr (mkFrame (columns raw)
                 (map (clean_row (date_reader infer_reader
                                              (without_nationwide raw)))
                      (rows (without_nationwide raw)))).
Proof.
  intros Hcol Htext. unfold state_df.
  rewrite (exclude_malaysia_ok raw Hcol Htext).
  replace (has_column "state"
             (convert_date infer_reader (without_nationwide raw)))
    with true by (symmetry; exact Hcol).
  unfold convert_date. simpl. now rewrite map_map.
Qed.

(** Without a [state] column the state file is only converted. *)
Lemma state_df_no_column (raw : Frame (option string)) :
  has_column "state" raw = false ->
  state_df infer_reader raw = inr (convert_date infer_reader raw).
Proof.
  intros Hcol. unfold state_df, exclude_malaysia. rewrite Hcol.
  replace (has_column "state" (convert_date infer_reader raw))
    with false by (symmetry; exact Hcol).
  reflexivity.
Qed.

End CleaningFacts.

(** Rows without a key can be removed before grouping. *)
Lemma groupby_sum_filter {K} `{KeyCmp K} {R} (key : R -> option K)
    (val : R -> Z) (p : R -> bool) (rs : list R) :
  (forall r, p r = false -> key r = None) ->
  groupby_sum key val (filter p rs) = groupby_sum key val rs.
Proof.
  intros Hp. unfold groupby_sum. generalize (@nil (K * Z)) as acc.
  induction rs as [|r rs IH]; intros acc; simpl; [reflexivity|].
  destruct (p r) eqn:E; simpl.
  - apply IH.
  - replace (groupby_step key val acc r) with acc
      by (unfold groupby_step; now rewrite (Hp r E)).
    apply IH.
Qed.

Lemma groupby_valid_dates (df : Frame (option Timestamp)) :
  groupby_date (valid_dates df) = groupby_date df
  /\ groupby_month (valid_dates df) = groupby_month df
  /\ groupby_year (valid_dates df) = groupby_year df
  /\ facility_yearly_pivot (valid_dates df) = facility_yearly_pivot df.
Proof.
  unfold groupby_date, groupby_month, groupby_year, facility_yearly_pivot,
    valid_dates. simpl.
  repeat split; apply groupby_sum_filter; intros r;
    destruct (date r); simpl; congruence.
Qed.

Section NormalizationFacts.
Variable infer_reader : string -> string -> option Timestamp.

(** C5: with a [state] column that holds text, the state file loses exactly
    its nationwide rows, those named "Malaysia" in any mix of capitals and
    small letters; every other row is kept whatever its count, and the
    facility file loses no row. *)
Theorem nationwide_rows_dropped (raw_state raw_facility : Frame (option string)) :
  has_column "state" raw_state = true ->
  is_text_column (map entity (rows raw_state)) = true ->
  exclude_malaysia raw_state = inr (without_nationwide raw_state)
  /\ state_df infer_reader raw_state
     = inr (mkFrame (columns raw_state)
                    (map (clean_row (date_reader infer_reader
                                                 (without_nationwide raw_state)))
                         (filter (fun r => negb (is_nationwide r))
                                 (rows raw_state))))
  /\ (forall r, In r (rows raw_state) -> is_nationwide r = false ->
        In r (rows (without_nationwide raw_state))
        /\ In (clean_row (date_reader infer_reader
                                      (without_nationwide raw_state)) r)
              (rows (cleaned (state_df infer_reader raw_state)))
        /\ daily (clean_row (date_reader infer_reader
                                         (without_nationwide raw_state)) r)
           = daily r)
  /\ rows (facility_df infer_reader raw_facility)
     = map (clean_row (date_reader infer_reader raw_facility))
           (rows raw_facility).
Proof.
  intros Hcol Htext.
  pose proof (state_df_ok infer_reader raw_state Hcol Htext) as Hstate.
  split; [now apply exclude_malaysia_ok|]. split; [exact Hstate|].
  split; [|apply facility_df_rows].
  intros r Hr Hn.
  assert (Hkept : In r (rows (without_nationwide raw_state))).
  { unfold without_nationwide. simpl. apply filter_In. now rewrite Hn. }
  split; [exact Hkept|]. split; [|reflexivity].
  rewrite Hstate. simpl. now apply in_map.
Qed.


(** C6: a row whose date the reader of its column cannot read gets the
    missing date, nothing being raised, and stays in the cleaned file (so
    does a row of the state file that line 34 has kept); it is not among the
    rows with a date, and the totals by day, by month and by year (the
    yearly table by hospital included) are those of the rows with a date. *)
Theorem unreadable_date_kept (raw : Frame (option string))
    (r : Row (option string)) :
  In r (rows raw) ->
  to_datetime (date_reader infer_reader raw) (date r) = None ->
  (In (clean_row (date_reader infer_reader raw) r)
      (rows (facility_df infer_reader raw))
   /\ date (clean_row (date_reader infer_reader raw) r) = None
   /\ ~ In (clean_row (date_reader infer_reader raw) r)
           (rows (valid_dates (facility_df infer_reader raw))))
  /\ (forall raw_state df,
         exclude_malaysia raw_state = inr raw ->
         state_df infer_reader raw_state = inr df ->
         exists r', In r' (rows df)
                    /\ date r' = None /\ daily r' = daily r
                    /\ ~ In r' (rows (valid_dates df)))
  /\ List.length (rows (facility_df infer_reader raw))
     = List.length (rows raw)
  /\ forall df : Frame (option Timestamp),
       facility_daily_sum df = facility_daily_sum (valid_dates df)
       /\ state_daily_sum df = state_daily_sum (valid_dates df)
       /\ facility_monthly df = facility_monthly (valid_dates df)
       /\ state_monthly df = state_monthly (valid_dates df)
       /\ yearly_facility df = yearly_facility (valid_dates df)
       /\ yearly_state df = yearly_state (valid_dates df)
       /\ facility_daily df = facility_daily (valid_dates df)
       /\ state_daily df = state_daily (valid_dates df)
       /\ facility_yearly_pivot df = facility_yearly_pivot (valid_dates df).
Proof.
  intros Hr Hd.
  assert (Hnone : date (clean_row (date_reader infer_reader raw) r) = None)
    by exact Hd.
  assert (Hout : forall (df : Frame (option Timestamp)) r',
             date r' = None -> ~ In r' (rows (valid_dates df))).
  { intros df r' E Hin. unfold valid_dates in Hin. simpl in Hin.
    apply filter_In in Hin. rewrite E in Hin. destruct Hin; discriminate. }
  split; [|split; [|split]].
  - rewrite facility_df_rows at 1. auto using in_map.
  - intros raw_state df Hex Hdf. unfold state_df in Hdf. rewrite Hex in Hdf.
    injection Hdf as <-.
    destruct (has_column "state" (convert_date infer_reader raw)).
    + exists (clean_row (date_reader infer_reader raw) r).
      repeat split; auto. simpl. unfold convert_date. simpl.
      rewrite map_map. now apply (in_map (clean_row _)).
    + exists (mkRow (to_datetime (date_reader infer_reader raw) (date r))
                    (entity r) (daily r)).
      repeat split; auto. unfold convert_date. simpl.
      apply (in_map (fun r => mkRow (to_datetime (date_reader infer_reader raw)
                                                 (date r))
                                    (entity r) (daily r))). assumption.
  - rewrite facility_df_rows. apply length_map.
  - intros df. destruct (groupby_valid_dates df) as (Ed & Em & Ey & Ep).
    unfold facility_daily_sum, state_daily_sum, facility_monthly,
      state_monthly, yearly_facility, yearly_state, facility_daily,
      state_daily.
    rewrite Ed, Em, Ey, Ep. repeat split.
Qed.
End NormalizationFacts.

(** ** The scenario of the two sample files *)

(** On the sample files the nationwide row is dropped, and the first of
    January shows 15 against 14: a difference of 1, a mismatch. *)
Example scenario_verification :
  state_df sample_reader sample_state = inr sample_state_df
  /\ verification_df (facility_daily_sum sample_facility_df)
                     (state_daily_sum sample_state_df)
     = [ mkVRow d_2023_01_01 (Some 15) (Some 14) (Some 1);
         mkVRow d_2023_01_02 None (Some 3) None ]
  /\ mismatch_count (facility_daily_sum sample_facility_df)
                    (state_daily_sum sample_state_df)
     = 2%nat.
Proof. repeat split; reflexivity. Qed.

(** On a state file in which no row has a name, line 34 raises. *)
Example scenario_nameless :
  state_df sample_reader nameless_state = inl AttributeError.
Proof. reflexivity. Qed.

(** Two counts of 2^62 on the same day: the daily total wraps around. *)
Example scenario_overflow :
  groupby_date
    (mkFrame ["date"; "hospital"; "daily"]%string
       [ mkRow (Some d_2023_01_01) (Some "H1"%string) 4611686018427387904;
         mkRow (Some d_2023_01_01) (Some "H2"%string) 4611686018427387904 ])
  = [(d_2023_01_01, -9223372036854775808)].
Proof. reflexivity. Qed.

(** A ranking with equal totals: they keep the order of the names. *)
Example scenario_ties :
  sort_values_desc
    [("A"%string, 5); ("B"%string, 5); ("C"%string, 7); ("D"%string, 5);
     ("E"%string, 7)]
  = [("C"%string, 7); ("E"%string, 7); ("A"%string, 5); ("B"%string, 5);
     ("D"%string, 5)].
Proof. reflexivity. Qed.

Lemma nationwide_rows_dropped_witness :
  has_column "state" sample_state = true
  /\ is_text_column (map entity (rows sample_state)) = true
  /\ state_df sample_reader sample_state
     = inr (mkFrame (columns sample_state)
                    (map (clean_row (date_reader sample_reader
                                       (without_nationwide sample_state)))
                         (filter (fun r => negb (is_nationwide r))
                                 (rows sample_state)))).
Proof.
  split; [reflexivity|]. split; [reflexivity|].
  destruct (nationwide_rows_dropped sample_reader sample_state sample_facility
              eq_refl eq_refl) as (_ & Hstate & _).
  exact Hstate.
Defined.


Lemma unreadable_date_kept_witness :
  In (mkRow (Some "31/31/2023"%string) (Some "H2"%string) 7)
     (rows sample_facility)
  /\ to_datetime (date_reader sample_reader sample_facility)
                 (Some "31/31/2023"%string) = None
  /\ In (mkRow None (Some "H2"%string) 7) (rows sample_facility_df).
Proof.
  assert (Hin : In (mkRow (Some "31/31/2023"%string) (Some "H2"%string) 7)
                   (rows sample_facility)).
  { simpl. right. right. left. reflexivity. }
  split; [exact Hin|]. split; [reflexivity|].
  destruct (unreadable_date_kept sample_reader sample_facility
              (mkRow (Some "31/31/2023"%string) (Some "H2"%string) 7)
              Hin eq_refl) as ((Hkept & _) & _).
  exact Hkept.
Defined.

Lemma reconcile_report_witness :
  float_exact (facility_daily_sum sample_facility_df)
  /\ float_exact (state_daily_sum sample_state_df)
  /\ List.length
       (mismatch_preview (facility_daily_sum sample_facility_df)
                         (state_daily_sum sample_state_df))
     = Nat.min 10
         (mismatch_count (facility_daily_sum sample_facility_df)
                         (state_daily_sum sample_state_df)).
Proof.
  split; [reflexivity|]. split; [reflexivity|].
  pose proof (reconcile_report (facility_daily_sum sample_facility_df)
                               (state_daily_sum sample_state_df)
                               eq_refl eq_refl)
    as Hreport.
  cbv zeta in Hreport. destruct Hreport as (_ & _ & _ & (Hlen & _) & _).
  exact Hlen.
Defined.

Lemma reconcile_self_witness :
  mismatch_count (facility_daily_sum sample_facility_df)
                 (facility_daily_sum sample_facility_df)
  = 0%nat.
Proof.
  destruct (reconcile_self (facility_daily_sum sample_facility_df))
    as (_ & _ & _ & Hcount).
  exact Hcount.
Defined.

Lemma reconcile_swap_witness :
  verification_df (state_daily_sum sample_state_df)
                  (facility_daily_sum sample_facility_df)
  = map swap_sides
        (verification_df (facility_daily_sum sample_facility_df)
                         (state_daily_sum sample_state_df)).
Proof.
  destruct (reconcile_swap (facility_daily_sum sample_facility_df)
                           (state_daily_sum sample_state_df))
    as (Hswap & _).
  exact Hswap.
Defined.

(** * Further properties of the script *)

(** ** The grouped series *)

Lemma sum_all_sum_where {K} (s : Series K) :
  sum_all s = sum_where (fun _ => true) s.
Proof.
  unfold sum_all, sum_Z, sum_where.
  induction s as [|e s IH]; simpl; [reflexivity|]. now rewrite IH.
Qed.

Lemma groupby_sum_sum_all {K} `{KeyOrder K} {R} (key : R -> option K)
    (val : R -> Z) (rs : list R) :
  wrap64 (sum_all (groupby_sum key val rs))
  = wrap64 (sum_rows (fun r => match key r with
                               | Some _ => true
                               | None => false
                               end) val rs).
Proof. rewrite sum_all_sum_where. apply groupby_sum_sum_where. Qed.

Lemma groupby_sum_sum_all_exact {K} `{KeyOrder K} {R} (key : R -> option K)
    (val : R -> Z) (rs : list R) :
  no_overflow val rs ->
  sum_all (groupby_sum key val rs)
  = sum_rows (fun r => match key r with Some _ => true | None => false end)
             val rs.
Proof.
  intros Hb. rewrite sum_all_sum_where.
  now apply groupby_sum_sum_where_exact.
Qed.

(** X1: sorting the daily totals by date changes nothing, as grouping gives
    them in date order: the series of the verification (lines 71-72) and
    those of the time-series chart (lines 115-116) are the same. *)
Theorem daily_series_agree (facility state : Frame (option Timestamp)) :
  facility_daily_sum facility = facility_daily facility
  /\ state_daily_sum state = state_daily state.
Proof. split; apply daily_sum_sorted. Qed.

(** X2: the daily, monthly and yearly totals and the yearly table by
    hospital come in strictly increasing order of date, month, year and
    (year, hospital): each key appears once. *)
Theorem grouped_index_ascending (df : Frame (option Timestamp)) :
  ascending (index (facility_daily_sum df))
  /\ ascending (index (facility_monthly df))
  /\ StronglySorted Z.lt (index (yearly_facility df))
  /\ ascending (index (facility_yearly_pivot df))
  /\ NoDup (index (facility_daily_sum df))
  /\ NoDup (index (facility_monthly df))
  /\ NoDup (index (yearly_facility df))
  /\ NoDup (index (facility_yearly_pivot df)).
Proof.
  unfold facility_daily_sum. rewrite daily_sum_sorted.
  assert (Hd := groupby_sum_ascending date daily (rows df)).
  assert (Hm := groupby_sum_ascending
                  (fun r => option_map to_period_M (date r)) daily (rows df)).
  assert (Hy := groupby_sum_ascending
                  (fun r => option_map dt_year (date r)) daily (rows df)).
  assert (Hp : ascending (index (facility_yearly_pivot df)))
    by apply groupby_sum_ascending.
  split; [exact Hd|]. split; [exact Hm|]. split; [exact Hy|].
  split; [exact Hp|].
  split; [exact (ascending_NoDup _ Hd)|].
  split; [exact (ascending_NoDup _ Hm)|].
  split; [exact (ascending_NoDup _ Hy)|].
  exact (ascending_NoDup _ Hp).
Qed.

(** X3: the daily totals are empty exactly when no row has a readable date;
    an empty file gives an empty series. *)
Theorem daily_sum_empty (df : Frame (option Timestamp)) :
  facility_daily_sum df = [] <-> forall r, In r (rows df) -> date r = None.
Proof.
  unfold facility_daily_sum. rewrite daily_sum_sorted. unfold groupby_date.
  split.
  - intros E r Hr. destruct (date r) as [d|] eqn:Ed; [|reflexivity].
    assert (Hin : In d (index (groupby_sum date daily (rows df))))
      by (apply groupby_sum_index; eauto).
    rewrite E in Hin. destruct Hin.
  - intros Hall.
    destruct (groupby_sum date daily (rows df)) as [|[d t] s] eqn:E;
      [reflexivity|].
    assert (Hin : In d (index (groupby_sum date daily (rows df))))
      by (rewrite E; now left).
    apply groupby_sum_index in Hin. destruct Hin as (r & Hr & Hd).
    rewrite (Hall r Hr) in Hd. discriminate.
Qed.

Lemma sum_rows_valid_dates {A} (f : Timestamp -> A)
    (rs : list (Row (option Timestamp))) :
  sum_rows (fun r => match option_map f (date r) with
                     | Some _ => true
                     | None => false
                     end) daily rs
  = sum_rows (fun r => match date r with Some _ => true | None => false end)
             daily rs.
Proof. apply sum_rows_ext. intros r. now destruct (date r). Qed.

(** X4: the daily, the monthly and the yearly totals all add up, as the
    script adds (in int64), to the same grand total, the sum of [daily] over
    the rows with a readable date; and exactly so when the counts cannot
    overflow. *)
Theorem grand_totals_agree (df : Frame (option Timestamp)) :
  (wrap64 (sum_all (facility_daily_sum df))
   = wrap64 (sum_rows (fun r => match date r with
                                | Some _ => true
                                | None => false
                                end) daily (rows df))
   /\ wrap64 (sum_all (facility_monthly df))
      = wrap64 (sum_all (facility_daily_sum df))
   /\ wrap64 (sum_all (yearly_facility df))
      = wrap64 (sum_all (facility_daily_sum df)))
  /\ (no_overflow daily (rows df) ->
      sum_all (facility_daily_sum df)
      = sum_rows (fun r => match date r with
                           | Some _ => true
                           | None => false
                           end) daily (rows df)
      /\ sum_all (facility_monthly df) = sum_all (facility_daily_sum df)
      /\ sum_all (yearly_facility df) = sum_all (facility_daily_sum df)).
Proof.
  unfold facility_daily_sum. rewrite daily_sum_sorted.
  unfold facility_monthly, yearly_facility, groupby_date, groupby_month,
    groupby_year.
  split.
  - rewrite !groupby_sum_sum_all, !sum_rows_valid_dates. auto.
  - intros Hb. rewrite !groupby_sum_sum_all_exact by assumption.
    rewrite !sum_rows_valid_dates. auto.
Qed.

Lemma daily_sum_total (df : Frame (option Timestamp)) :
  wrap64 (sum_all (facility_daily_sum df))
  = wrap64 (sum_rows (fun r => match date r with
                               | Some _ => true
                               | None => false
                               end) daily (rows df)).
Proof.
  unfold facility_daily_sum. rewrite daily_sum_sorted.
  apply groupby_sum_sum_all.
Qed.

Lemma daily_sum_total_exact (df : Frame (option Timestamp)) :
  no_overflow daily (rows df) ->
  sum_all (facility_daily_sum df)
  = sum_rows (fun r => match date r with Some _ => true | None => false end)
             daily (rows df).
Proof.
  intros Hb. unfold facility_daily_sum. rewrite daily_sum_sorted.
  now apply groupby_sum_sum_all_exact.
Qed.

(** ** The cleaned files *)


Lemma filter_map_swap {A B} (p : B -> bool) (f : A -> B) (l : list A) :
  filter p (map f l) = map f (filter (fun a => p (f a)) l).
Proof.
  induction l as [|a l IH]; simpl; [reflexivity|].
  destruct (p (f a)); simpl; now rewrite IH.
Qed.

Lemma sum_Z_perm (l l' : list Z) : Permutation l l' -> sum_Z l = sum_Z l'.
Proof. induction 1; simpl; lia. Qed.

Lemma sum_rows_map {A B} (f : A -> B) (p : B -> bool) (val : B -> Z)
    (l : list A) :
  sum_rows p val (map f l)
  = sum_rows (fun a => p (f a)) (fun a => val (f a)) l.
Proof. induction l as [|a l IH]; simpl; [reflexivity|]. now rewrite IH. Qed.

Lemma sum_rows_split {R} (p : R -> bool) (val : R -> Z) (rs : list R) :
  sum_rows (fun _ => true) val rs
  = sum_rows p val rs + sum_rows (fun r => negb (p r)) val rs.
Proof.
  induction rs as [|r rs IH]; simpl; [reflexivity|].
  destruct (p r); simpl; lia.
Qed.

Lemma abs_sum_rows_map {A B} (f : A -> B) (val : B -> Z) (l : list A) :
  abs_sum_rows val (map f l) = abs_sum_rows (fun a => val (f a)) l.
Proof. induction l as [|a l IH]; simpl; [reflexivity|]. now rewrite IH. Qed.

Lemma facility_totals_sum_all (facility : Frame (option Timestamp)) :
  sum_all (facility_totals facility)
  = sum_all (groupby_sum entity daily (rows facility)).
Proof.
  unfold facility_totals, sum_all.
  apply sum_Z_perm, Permutation_map, sort_values_desc_perm.
Qed.


Section CleanedFiles.
Variable infer_reader : string -> string -> option Timestamp.

Lemma facility_df_no_overflow (raw : Frame (option string)) :
  no_overflow daily (rows raw) ->
  no_overflow daily (rows (facility_df infer_reader raw)).
Proof.
  unfold no_overflow. now rewrite facility_df_rows, abs_sum_rows_map.
Qed.


(** X7: the totals by hospital of the cleaned facility file share out the
    whole of the raw file: added as the script adds (in int64) they give the
    sum of all its counts, which is the grand total of the daily series plus
    the counts of the rows whose date cannot be read; and exactly so when
    the counts cannot overflow. *)
Theorem hospital_totals_cover_file (raw : Frame (option string)) :
  let facility := facility_df infer_reader raw in
  let unreadable :=
    sum_rows (fun r => match to_datetime (date_reader infer_reader raw)
                                         (date r) with
                       | Some _ => false
                       | None => true
                       end) daily (rows raw) in
  (wrap64 (sum_all (facility_totals facility))
   = wrap64 (sum_rows (fun _ => true) daily (rows raw))
   /\ wrap64 (sum_all (facility_totals facility))
      = wrap64 (sum_all (facility_daily_sum facility) + unreadable))
  /\ (no_overflow daily (rows raw) ->
      sum_all (facility_totals facility)
      = sum_rows (fun _ => true) daily (rows raw)
      /\ sum_all (facility_totals facility)
         = sum_all (facility_daily_sum facility) + unreadable).
Proof.
  intros facility unreadable.
  assert (Hall : sum_rows (fun r => match entity r with
                                    | Some _ => true
                                    | None => false
                                    end) daily (rows facility)
                 = sum_rows (fun _ => true) daily (rows raw)).
  { unfold facility. rewrite facility_df_rows, sum_rows_map. reflexivity. }
  assert (Hsplit : sum_rows (fun _ => true) daily (rows raw)
                   = sum_rows (fun r => match date r with
                                        | Some _ => true
                                        | None => false
                                        end) daily (rows facility)
                     + unreadable).
  { unfold facility, unreadable. rewrite facility_df_rows, sum_rows_map.
    simpl.
    rewrite (sum_rows_split
               (fun r => match to_datetime (date_reader infer_reader raw)
                                           (date r) with
                         | Some _ => true
                         | None => false
                         end)).
    f_equal. apply sum_rows_ext. intros r.
    now destruct (to_datetime (date_reader infer_reader raw) (date r)). }
  split.
  - assert (Htot : wrap64 (sum_all (facility_totals facility))
                   = wrap64 (sum_rows (fun _ => true) daily (rows raw))).
    { now rewrite facility_totals_sum_all, groupby_sum_sum_all, Hall. }
    split; [exact Htot|]. rewrite Htot, Hsplit.
    change (eqm64 (sum_rows (fun r => match date r with
                                      | Some _ => true
                                      | None => false
                                      end) daily (rows facility) + unreadable)
                  (sum_all (facility_daily_sum facility) + unreadable)).
    apply eqm64_add; [|reflexivity].
    symmetry. exact (daily_sum_total facility).
  - intros Hb. pose proof (facility_df_no_overflow raw Hb) as Hb'.
    fold facility in Hb'.
    assert (Htot : sum_all (facility_totals facility)
                   = sum_rows (fun _ => true) daily (rows raw)).
    { now rewrite facility_totals_sum_all, groupby_sum_sum_all_exact, Hall. }
    split; [exact Htot|].
    now rewrite Htot, Hsplit, daily_sum_total_exact.
Qed.

(** X8: a hospital of the raw file is ranked under its name, or under
    "Unknown" when its name is missing, with the int64 sum of all the rows
    that carry this name (their exact sum when the counts cannot overflow);
    rows without a name and rows of a hospital called "Unknown" are added
    together. *)
Theorem hospital_total_from_raw (raw : Frame (option string)) :
  (forall (h : string) (t : Z),
      In (h, t) (facility_totals (facility_df infer_reader raw))
      <-> (exists r, In r (rows raw) /\ filled_name r = h)
          /\ t = wrap64 (sum_rows (fun r => String.eqb h (filled_name r))
                                  daily (rows raw)))
  /\ (no_overflow daily (rows raw) ->
      forall (h : string) (t : Z),
        In (h, t) (facility_totals (facility_df infer_reader raw))
        <-> (exists r, In r (rows raw) /\ filled_name r = h)
            /\ t = sum_rows (fun r => String.eqb h (filled_name r))
                            daily (rows raw)).
Proof.
  assert (Hsum : forall h,
             sum_rows (fun r => match entity r with
                                | Some h' => key_eqb h h'
                                | None => false
                                end) daily
                      (rows (facility_df infer_reader raw))
             = sum_rows (fun r => String.eqb h (filled_name r)) daily
                        (rows raw)).
  { intros h. rewrite facility_df_rows, sum_rows_map.
    apply sum_rows_ext. intros r. simpl. apply key_eqb_string. }
  assert (Hex : forall h,
             (exists r, In r (rows (facility_df infer_reader raw))
                        /\ entity r = Some h)
             <-> exists r, In r (rows raw) /\ filled_name r = h).
  { intros h. rewrite facility_df_rows. split.
    - intros (r & Hr & Hk). apply in_map_iff in Hr.
      destruct Hr as (r0 & <- & Hr0). exists r0. split; [assumption|].
      simpl in Hk. unfold filled_name. congruence.
    - intros (r & Hr & Hk).
      exists (clean_row (date_reader infer_reader raw) r).
      split; [now apply in_map|]. simpl. unfold filled_name in Hk.
      now rewrite Hk. }
  split.
  - intros h t. now rewrite facility_totals_In, groupby_sum_In, Hsum, Hex.
  - intros Hb h t.
    rewrite facility_totals_In,
      (groupby_sum_In_exact _ _ _ _ _ (facility_df_no_overflow raw Hb)).
    now rewrite Hsum, Hex.
Qed.
End CleanedFiles.

(** ** The verification table *)

Section UnionFacts.
Context {K : Type} `{KeyOrder K}.

Lemma get_above (s : Series K) (k : K) :
  Forall (fun k' => kcmp k k' = Lt) (index s) -> get s k = None.
Proof.
  intros Hall. apply get_None. intros Hin.
  rewrite Forall_forall in Hall. specialize (Hall k Hin).
  now rewrite kcmp_refl in Hall.
Qed.

(** Two series in index order that read the same at every key are equal. *)
Lemma series_ext (f s : Series K) :
  ascending (index f) -> ascending (index s) ->
  (forall k, get f k = get s k) -> f = s.
Proof.
  unfold ascending. revert s.
  induction f as [|[k v] f IH]; intros [|[k' v'] s] Hf Hs Hget.
  - reflexivity.
  - specialize (Hget k'). simpl in Hget. rewrite kcmp_refl in Hget.
    discriminate.
  - specialize (Hget k). simpl in Hget. rewrite kcmp_refl in Hget.
    discriminate.
  - simpl in Hf, Hs.
    apply StronglySorted_inv in Hf. destruct Hf as [Hf Hfa].
    apply StronglySorted_inv in Hs. destruct Hs as [Hs Hsa].
    assert (Hk : k = k' /\ v = v').
    { destruct (kcmp k k') eqn:E.
      - apply kcmp_eq in E. subst k'. split; [reflexivity|].
        specialize (Hget k). simpl in Hget. rewrite kcmp_refl in Hget.
        congruence.
      - specialize (Hget k). simpl in Hget. rewrite kcmp_refl, E in Hget.
        rewrite get_above in Hget; [discriminate|].
        rewrite Forall_forall in *. intros y Hy.
        eapply kcmp_trans; eauto.
      - specialize (Hget k'). simpl in Hget.
        rewrite kcmp_refl, (kcmp_Gt_Lt _ _ E) in Hget.
        rewrite get_above in Hget; [discriminate|].
        rewrite Forall_forall in *. intros y Hy.
        eapply kcmp_trans; eauto using kcmp_Gt_Lt. }
    destruct Hk as [<- <-]. f_equal. apply IH; auto.
    intros y. specialize (Hget y). simpl in Hget.
    destruct (kcmp y k) eqn:E; auto.
    apply kcmp_eq in E. subst y. now rewrite !get_above.
Qed.

(** The union of two increasing indexes is increasing. *)
Lemma index_union_ascending (a b : list K) :
  ascending a -> ascending b -> ascending (index_union a b).
Proof.
  unfold ascending. revert b.
  induction a as [|x a IHa]; intros b Ha Hb; [exact Hb|].
  induction b as [|y b IHb]; [now rewrite index_union_nil_r|].
  pose proof Ha as Ha0. pose proof Hb as Hb0.
  apply StronglySorted_inv in Ha. destruct Ha as [Ha Hxa].
  apply StronglySorted_inv in Hb. destruct Hb as [Hb Hyb].
  rewrite Forall_forall in Hxa, Hyb.
  rewrite index_union_cons. destruct (kcmp x y) eqn:E.
  - apply kcmp_eq in E. subst y. constructor; [auto|].
    apply Forall_forall. intros z Hz. apply index_union_In in Hz.
    destruct Hz; auto.
  - constructor; [auto|].
    apply Forall_forall. intros z Hz. apply index_union_In in Hz.
    destruct Hz as [Hz|[<-|Hz]]; auto.
    eapply kcmp_trans; eauto.
  - constructor; [auto|].
    apply Forall_forall. intros z Hz. apply index_union_In in Hz.
    apply kcmp_Gt_Lt in E.
    destruct Hz as [[<-|Hz]|Hz]; auto.
    eapply kcmp_trans; eauto.
Qed.

(** A date is matched exactly when both series have it with the same
    total. *)
Lemma matched_spec (fsum ssum : Series K) (d : K) :
  cell_ne0 (cell_sub (get fsum d) (get ssum d)) = false
  <-> exists v, get fsum d = Some v /\ get ssum d = Some v.
Proof.
  destruct (get fsum d) as [a|], (get ssum d) as [b|]; simpl;
    try (split; [discriminate | intros (v & E1 & E2); discriminate]).
  split.
  - destruct (a - b) eqn:E; try discriminate. intros _.
    exists a. split; [reflexivity|]. f_equal. lia.
  - intros (v & [= ->] & [= ->]). now rewrite Z.sub_diag.
Qed.

Lemma mismatches_nil (fsum ssum : Series K) :
  mismatches fsum ssum = []
  <-> forall d, In d (index_union (index fsum) (index ssum)) ->
                exists v, get fsum d = Some v /\ get ssum d = Some v.
Proof.
  unfold mismatches, verification_df.
  induction (index_union (index fsum) (index ssum)) as [|d l IH]; simpl.
  - split; [intros _ d [] | reflexivity].
  - unfold mismatched at 1. simpl.
    destruct (cell_ne0 (cell_sub (get fsum d) (get ssum d))) eqn:E.
    + split; [discriminate|]. intros Hall. exfalso.
      assert (E' : cell_ne0 (cell_sub (get fsum d) (get ssum d)) = false)
        by (apply matched_spec, Hall; now left).
      congruence.
    + rewrite IH. split.
      * intros Hall d' [<-|Hd']; [now apply matched_spec | auto].
      * intros Hall d' Hd'. apply Hall. now right.
Qed.

(** No mismatch is found exactly when the two series are equal. *)
Lemma mismatches_nil_eq (fsum ssum : Series K) :
  ascending (index fsum) -> ascending (index ssum) ->
  mismatches fsum ssum = [] <-> fsum = ssum.
Proof.
  intros Hf Hs. rewrite mismatches_nil. split.
  - intros Hall. apply series_ext; auto. intros k.
    destruct (get fsum k) as [a|] eqn:Ea.
    + destruct (Hall k) as (v & Ev & Es).
      * apply index_union_In. left. apply get_index. eauto.
      * congruence.
    + destruct (get ssum k) as [b|] eqn:Eb; [|reflexivity].
      destruct (Hall k) as (v & Ev & Es).
      * apply index_union_In. right. apply get_index. eauto.
      * congruence.
  - intros <- d Hd. apply index_union_In in Hd.
    assert (Hin : In d (index fsum)) by tauto.
    apply get_index in Hin. destruct Hin as [v Hv]. eauto.
Qed.
End UnionFacts.

Lemma dropna_map_length {A} (g : A -> option Z) (l : list A) :
  List.length (dropna (map g l))
  = List.length (filter (fun a => match g a with
                                  | Some _ => true
                                  | None => false
                                  end) l).
Proof.
  induction l as [|a l IH]; simpl; [reflexivity|].
  destruct (g a); simpl; now rewrite IH.
Qed.

Section CountFacts.
Context {K : Type} `{KeyOrder K}.

Lemma present_in_union (fsum ssum : Series K) :
  ascending (index fsum) -> ascending (index ssum) ->
  Permutation
    (filter (fun d => match get fsum d with Some _ => true | None => false end)
            (index_union (index fsum) (index ssum)))
    (index fsum).
Proof.
  intros Hf Hs. apply NoDup_Permutation.
  - apply NoDup_filter, ascending_NoDup. now apply index_union_ascending.
  - now apply ascending_NoDup.
  - intros d. rewrite filter_In, index_union_In, get_index. split.
    + intros [_ E]. destruct (get fsum d); [eauto | discriminate].
    + intros [v E]. rewrite E. split; [|reflexivity].
      left. eauto.
Qed.

Lemma common_in_union (fsum ssum : Series K) :
  ascending (index fsum) -> ascending (index ssum) ->
  Permutation
    (filter (fun d => match cell_sub (get fsum d) (get ssum d) with
                      | Some _ => true
                      | None => false
                      end)
            (index_union (index fsum) (index ssum)))
    (filter (fun d => match get ssum d with Some _ => true | None => false end)
            (index fsum)).
Proof.
  intros Hf Hs. apply NoDup_Permutation.
  - apply NoDup_filter, ascending_NoDup. now apply index_union_ascending.
  - now apply NoDup_filter, ascending_NoDup.
  - intros d. rewrite !filter_In, index_union_In, !get_index. split.
    + intros [_ E]. destruct (get fsum d), (get ssum d); try discriminate.
      eauto.
    + intros [[v E] E']. rewrite E. destruct (get ssum d); [|discriminate].
      split; [|reflexivity]. left. eauto.
Qed.
End CountFacts.

Lemma facility_daily_sum_ascending (facility : Frame (option Timestamp)) :
  ascending (index (facility_daily_sum facility)).
Proof.
  unfold facility_daily_sum. rewrite daily_sum_sorted.
  apply groupby_sum_ascending.
Qed.

Lemma state_daily_sum_ascending (state : Frame (option Timestamp)) :
  ascending (index (state_daily_sum state)).
Proof. apply facility_daily_sum_ascending. Qed.

(** X9: the script prints that all the daily totals match exactly when the
    two daily series are equal, date for date; otherwise it prints a sample
    that is not empty, of ten rows at most. *)
Theorem all_match_iff_equal (facility state : Frame (option Timestamp)) :
  (verification_report (facility_daily_sum facility) (state_daily_sum state)
   = AllTotalsMatch
   <-> facility_daily_sum facility = state_daily_sum state)
  /\ forall sample,
       verification_report (facility_daily_sum facility)
                           (state_daily_sum state)
       = SampleOfMismatches sample ->
       sample <> []
       /\ List.length sample
          = Nat.min 10 (mismatch_count (facility_daily_sum facility)
                                       (state_daily_sum state)).
Proof.
  pose proof (mismatches_nil_eq _ _ (facility_daily_sum_ascending facility)
                                (state_daily_sum_ascending state)) as Heq.
  unfold verification_report, mismatch_preview, mismatch_count.
  destruct (mismatches (facility_daily_sum facility) (state_daily_sum state))
    as [|r l] eqn:E.
  - split; [|discriminate]. split; [intros _; now apply Heq | reflexivity].
  - split.
    + split; [discriminate|]. intros E'. apply Heq in E'. discriminate.
    + intros sample Hsample.
      assert (Es : sample = firstn 10 (r :: l)) by congruence.
      rewrite Es. split; [simpl; discriminate | apply length_firstn].
Qed.

(** X10: when the totals of both files are exact in float64, a date of the
    verification table is matched exactly when both files have a total on
    that date and the two totals are equal. *)
Theorem matched_iff_same_total (facility state : Frame (option Timestamp))
    (r : VRow Timestamp) :
  float_exact (facility_daily_sum facility) ->
  float_exact (state_daily_sum state) ->
  In r (verification_df (facility_daily_sum facility)
                        (state_daily_sum state)) ->
  matched r = true
  <-> exists v, get (facility_daily_sum facility) (vdate r) = Some v
                /\ get (state_daily_sum state) (vdate r) = Some v.
Proof.
  intros _ _ Hr. apply verification_df_In in Hr. destruct Hr as [_ Hr].
  rewrite <- matched_spec. rewrite Hr at 1.
  unfold matched, mismatched. simpl. apply negb_true_iff.
Qed.

(** X11: the verification table lists the dates of the two files in
    increasing order, each date once. *)
Theorem verification_df_ascending (facility state : Frame (option Timestamp)) :
  ascending (map vdate (verification_df (facility_daily_sum facility)
                                        (state_daily_sum state)))
  /\ NoDup (map vdate (verification_df (facility_daily_sum facility)
                                       (state_daily_sum state))).
Proof.
  rewrite verification_df_dates.
  assert (Hu := index_union_ascending _ _
                  (facility_daily_sum_ascending facility)
                  (state_daily_sum_ascending state)).
  split; [exact Hu | exact (ascending_NoDup _ Hu)].
Qed.

(** X12: in the description of the verification table, the count of
    [facility_total] is the number of dates of the facility file, the count
    of [state_total] the number of dates of the state file, and the count of
    [difference] the number of dates that both files have. *)
Theorem verification_describe_counts
    (facility state : Frame (option Timestamp)) :
  let fsum := facility_daily_sum facility in
  let ssum := state_daily_sum state in
  let D := verification_describe (verification_df fsum ssum) in
  d_count (fst (fst D)) = List.length fsum
  /\ d_count (snd (fst D)) = List.length ssum
  /\ d_count (snd D)
     = List.length
         (filter (fun d => match get ssum d with
                           | Some _ => true
                           | None => false
                           end) (index fsum)).
Proof.
  intros fsum ssum D.
  pose proof (facility_daily_sum_ascending facility) as Hf.
  pose proof (state_daily_sum_ascending state) as Hs.
  fold fsum in Hf. fold ssum in Hs.
  unfold D, verification_describe, describe, verification_df. simpl.
  rewrite !map_map. simpl. rewrite !dropna_map_length.
  split; [|split].
  - rewrite (Permutation_length (present_in_union fsum ssum Hf Hs)).
    apply length_map.
  - rewrite index_union_comm.
    rewrite (Permutation_length (present_in_union ssum fsum Hs Hf)).
    apply length_map.
  - apply Permutation_length. now apply common_in_union.
Qed.

(** ** The yearly table by hospital and the ranking *)

(** X13: when the counts of the file are small enough for every total to be
    exact (in int64 and in float64), in the yearly table by hospital of the
    cleaned facility file the cells of a year add up to the yearly total of
    that year, and the cells of a hospital add up to the counts of its rows
    with a readable date. *)
Theorem pivot_margins (infer_reader : string -> string -> option Timestamp)
    (raw : Frame (option string)) :
  small_counts daily (rows raw) ->
  (forall y : Z,
      sum_where (fun k => key_eqb y (fst k))
                (facility_yearly_pivot (facility_df infer_reader raw))
      = match get (yearly_facility (facility_df infer_reader raw)) y with
        | Some t => t
        | None => 0
        end)
  /\ (forall h : string,
        sum_where (fun k => key_eqb h (snd k))
                  (facility_yearly_pivot (facility_df infer_reader raw))
        = sum_rows (fun r => match date r, entity r with
                             | Some _, Some h' => String.eqb h h'
                             | _, _ => false
                             end) daily
                   (rows (facility_df infer_reader raw))).
Proof.
  intros Hsmall.
  assert (Hb : no_overflow daily (rows raw))
    by (unfold no_overflow, small_counts in *; lia).
  pose proof (facility_df_no_overflow infer_reader raw Hb) as Hb'.
  split.
  - intros y. unfold yearly_facility, groupby_year, facility_yearly_pivot.
    rewrite groupby_sum_get_exact by exact Hb'.
    rewrite groupby_sum_sum_where_exact by exact Hb'.
    rewrite facility_df_rows, !sum_rows_map.
    apply sum_rows_ext. intros r. simpl.
    now destruct (to_datetime (date_reader infer_reader raw) (date r)).
  - intros h. unfold facility_yearly_pivot.
    rewrite groupby_sum_sum_where_exact by exact Hb'.
    apply sum_rows_ext. intros r.
    destruct (date r); [|reflexivity].
    destruct (entity r); [|reflexivity]. simpl. apply key_eqb_string.
Qed.

Lemma StronglySorted_app_inv {A} (R : A -> A -> Prop) (l1 l2 : list A) :
  StronglySorted R (l1 ++ l2) ->
  forall a b, In a l1 -> In b l2 -> R a b.
Proof.
  induction l1 as [|x l1 IH]; simpl; intros Hs a b Ha Hb; [destruct Ha|].
  apply StronglySorted_inv in Hs. destruct Hs as [Hs Hall].
  destruct Ha as [<-|Ha]; [|eauto].
  rewrite Forall_forall in Hall. apply Hall, in_or_app. now right.
Qed.

(** X14: the chart of the top hospitals shows fifteen hospitals, or all of
    them when there are fewer; each is shown with its total, and no hospital
    left out has a larger total than a hospital shown. *)
Theorem top_hospitals_dominate (facility : Frame (option Timestamp)) :
  List.length (top_hospitals facility)
  = Nat.min 15 (List.length (facility_totals facility))
  /\ (forall e, In e (top_hospitals facility) ->
                In e (facility_totals facility))
  /\ (forall e e', In e (top_hospitals facility) ->
                   In e' (skipn 15 (facility_totals facility)) ->
                   snd e' <= snd e).
Proof.
  unfold top_hospitals. split; [apply length_firstn|]. split.
  - intros e He. rewrite <- (firstn_skipn 15 (facility_totals facility)).
    apply in_or_app. now left.
  - pose proof (sort_values_desc_sorted
                  (groupby_sum entity daily (rows facility))) as Hs.
    fold (facility_totals facility) in Hs.
    rewrite <- (firstn_skipn 15 (facility_totals facility)) in Hs.
    intros e e'. apply (StronglySorted_app_inv _ _ _ Hs).
Qed.

(** ** The order of the descriptive statistics *)

(** X15: whatever the column, a description is in order: without values it
    has a count of 0 and nothing else; with values the minimum, the three
    quartiles and the maximum come in increasing order and the mean lies
    between minimum and maximum; and a variance is never negative. *)
Theorem describe_ordered (c : list (option Z)) :
  let D := describe c in
  ((d_count D = 0%nat /\ d_min D = None /\ d_max D = None /\ d_mean D = None
    /\ d_q25 D = None /\ d_q50 D = None /\ d_q75 D = None)
   \/ exists lo hi m q1 q2 q3,
        d_min D = Some lo /\ d_max D = Some hi /\ d_mean D = Some m
        /\ d_q25 D = Some q1 /\ d_q50 D = Some q2 /\ d_q75 D = Some q3
        /\ (inject_Z lo <= q1)%Q /\ (q1 <= q2)%Q /\ (q2 <= q3)%Q
        /\ (q3 <= inject_Z hi)%Q
        /\ (inject_Z lo <= m <= inject_Z hi)%Q)
  /\ forall v, d_variance D = Some v -> (0 <= v)%Q.
Proof.
  intros D. unfold D, describe. simpl. split; [|apply variance_nonneg].
  destruct (dropna c) as [|a l] eqn:E; [left; repeat split|right].
  assert (Hne : a :: l <> []) by discriminate.
  destruct (min_max_spec (a :: l) a (or_introl eq_refl))
    as (lo & hi & Hlo & Hhi & Il & Ih & _).
  assert (Hall : forall y, In y (a :: l) -> lo <= y <= hi).
  { intros y Hy.
    destruct (min_max_spec (a :: l) y Hy) as (lo' & hi' & Hlo' & Hhi' & _ & _ & B).
    congruence. }
  destruct (quartile_spec 1 _ Hne) as (q1 & lo1 & hi1 & Hq1 & L1 & H1 & B1).
  destruct (quartile_spec 2 _ Hne) as (q2 & lo2 & hi2 & Hq2 & L2 & H2 & B2).
  destruct (quartile_spec 3 _ Hne) as (q3 & lo3 & hi3 & Hq3 & L3 & H3 & B3).
  rewrite Hlo in L1, L3. rewrite Hhi in H1, H3.
  injection L1 as <-. injection L3 as <-.
  injection H1 as <-. injection H3 as <-.
  destruct (mean (a :: l)) as [m|] eqn:Em; [|discriminate].
  exists lo, hi, m, q1, q2, q3.
  repeat (split; [first [assumption | reflexivity]|]).
  split; [apply B1|].
  split; [apply (quartile_mono 1 2 (a :: l)); auto; lia|].
  split; [apply (quartile_mono 2 3 (a :: l)); auto; lia|].
  split; [apply B3|].
  now apply (mean_bounds (a :: l)).
Qed.

Lemma dropna_daily {D} (rs : list (Row D)) :
  dropna (map (fun r => Some (daily r)) rs) = map daily rs.
Proof. induction rs as [|r rs IH]; simpl; [reflexivity|]. now rewrite IH. Qed.

(** X16: the description of the [daily] column counts every row of the
    cleaned facility file, the rows with an unreadable date included; its
    minimum and maximum are counts of rows of the frame and bound every
    count, so a negative count shows in the minimum. *)
Theorem describe_daily_all_rows
    (infer_reader : string -> string -> option Timestamp)
    (raw : Frame (option string)) :
  d_count (describe_daily (facility_df infer_reader raw))
  = List.length (rows raw)
  /\ forall (df : Frame (option Timestamp)) r,
       In r (rows df) ->
       exists rmin rmax,
         In rmin (rows df) /\ In rmax (rows df)
         /\ d_min (describe_daily df) = Some (daily rmin)
         /\ d_max (describe_daily df) = Some (daily rmax)
         /\ daily rmin <= daily r <= daily rmax.
Proof.
  split.
  - unfold describe_daily. rewrite facility_df_rows.
    unfold describe. cbn [d_count].
    now rewrite dropna_daily, !length_map.
  - intros df r Hr. unfold describe_daily, describe. cbn [d_min d_max].
    rewrite dropna_daily.
    destruct (min_max_spec (map daily (rows df)) (daily r) (in_map daily _ _ Hr))
      as (lo & hi & Hlo & Hhi & Il & Ih & B).
    apply in_map_iff in Il. destruct Il as (rmin & <- & Hmin).
    apply in_map_iff in Ih. destruct Ih as (rmax & <- & Hmax).
    exists rmin, rmax. auto.
Qed.

(** ** The grouped bar charts *)

Lemma select_sum_length (names : list string) (df : Charts.Columns)
    (sums : list Z) :
  Charts.select_sum names df = inr sums ->
  List.length sums = List.length names.
Proof.
  unfold Charts.select_sum.
  destruct (Charts.missing_columns names df); [|discriminate].
  intros [= <-]. apply length_map.
Qed.


Lemma bar_4_3 (positions : list Q) (heights : list Z) :
  List.length positions = 4%nat -> List.length heights = 3%nat ->
  Charts.bar positions heights = inl (Charts.ShapeMismatch 4 3).
Proof. intros E1 E2. unfold Charts.bar. now rewrite E1, E2. Qed.


(** X18: the charts of the three social groups and of the three donor types
    are never drawn, whatever the files: the positions [x] were computed for
    four columns, so with the three sums of the columns the call of [bar]
    fails on the shapes (4 against 3), and with a column missing the sums
    fail before. *)
Theorem three_column_charts_fail (facility state : Charts.Columns) :
  (exists e, Charts.grouped_bars Charts.social_groups facility state = inl e)
  /\ (exists e, Charts.grouped_bars Charts.donor_types facility state = inl e)
  /\ (forall names facility_sums state_sums,
         names = Charts.social_groups \/ names = Charts.donor_types ->
         Charts.select_sum names facility = inr facility_sums ->
         Charts.select_sum names state = inr state_sums ->
         Charts.grouped_bars names facility state
         = inl (Charts.ShapeMismatch 4 3)).
Proof.
  assert (Hfail : forall names facility_sums state_sums,
             names = Charts.social_groups \/ names = Charts.donor_types ->
             Charts.select_sum names facility = inr facility_sums ->
             Charts.select_sum names state = inr state_sums ->
             Charts.grouped_bars names facility state
             = inl (Charts.ShapeMismatch 4 3)).
  { intros names fs ss Hnames Hf Hs.
    assert (Hlen : List.length names = 3%nat)
      by (destruct Hnames as [-> | ->]; reflexivity).
    pose proof (select_sum_length _ _ _ Hf) as Lf. rewrite Hlen in Lf.
    unfold Charts.grouped_bars. rewrite Hf, Hs.
    now rewrite bar_4_3 by (rewrite ?length_map; auto). }
  assert (Hnever : forall names,
             names = Charts.social_groups \/ names = Charts.donor_types ->
             exists e, Charts.grouped_bars names facility state = inl e).
  { intros names Hnames.
    destruct (Charts.select_sum names facility) as [e|fs] eqn:Hf.
    - exists e. unfold Charts.grouped_bars. now rewrite Hf.
    - destruct (Charts.select_sum names state) as [e|ss] eqn:Hs.
      + exists e. unfold Charts.grouped_bars. now rewrite Hf, Hs.
      + eexists. eapply Hfail; eauto. }
  split; [apply Hnever; now left|]. split; [apply Hnever; now right|].
  exact Hfail.
Qed.

(** ** The report of missing values *)

Lemma filter_length_partition {A} (p : A -> bool) (l : list A) :
  (List.length (filter p l) + List.length (filter (fun a => negb (p a)) l)
   = List.length l)%nat.
Proof.
  induction l as [|a l IH]; simpl; [reflexivity|].
  destruct (p a); simpl; lia.
Qed.

(** X20: in the report of missing values (lines 51-52), the rows without a
    date and the rows that enter the groupings by date make up the whole
    facility file; and when the nationwide rows could be dropped from the
    state file, the report counts as many rows without a name as the raw
    file has. *)
Theorem missing_values_report
    (infer_reader : string -> string -> option Timestamp)
    (raw : Frame (option string)) :
  (isnull_sum_date (convert_date infer_reader raw)
   + List.length (rows (valid_dates (facility_df infer_reader raw)))
   = List.length (rows raw))%nat
  /\ forall filtered,
       exclude_malaysia raw = inr filtered ->
       isnull_sum_entity (convert_date infer_reader filtered)
       = isnull_sum_entity raw.
Proof.
  split.
  - unfold isnull_sum_date, valid_dates. rewrite facility_df_rows. simpl.
    rewrite !filter_map_swap, !length_map. simpl.
    rewrite Nat.add_comm.
    rewrite <- (filter_length_partition
                  (fun r => match to_datetime (date_reader infer_reader raw)
                                              (date r) with
                            | Some _ => true
                            | None => false
                            end) (rows raw)).
    f_equal. f_equal. apply filter_ext. intros r.
    now destruct (to_datetime (date_reader infer_reader raw) (date r)).
  - intros filtered. unfold isnull_sum_entity, exclude_malaysia.
    destruct (has_column "state" raw);
      [destruct (is_text_column (map entity (rows raw)));
       [|discriminate]|];
      intros E; injection E as <-; simpl;
      rewrite filter_map_swap, length_map; simpl; [|reflexivity].
    induction (rows raw) as [|r l IH]; simpl; [reflexivity|].
    unfold is_malaysia at 1.
    destruct (entity r) as [s|] eqn:E; simpl.
    + destruct (String.eqb (str_lower s) "malaysia"); simpl;
        rewrite ?E; exact IH.
    + rewrite E. simpl. now rewrite IH.
Qed.

(** ** Sample runs *)

Lemma matched_iff_same_total_witness :
  (float_exact (facility_daily_sum sample_facility_df)
   /\ float_exact (state_daily_sum sample_state_df)
   /\ In (mkVRow d_2023_01_01 (Some 15) (Some 14) (Some 1))
         (verification_df (facility_daily_sum sample_facility_df)
                          (state_daily_sum sample_state_df)))
  /\ (matched (mkVRow d_2023_01_01 (Some 15) (Some 14) (Some 1)) = true
      <-> exists v,
            get (facility_daily_sum sample_facility_df) d_2023_01_01 = Some v
            /\ get (state_daily_sum sample_state_df) d_2023_01_01 = Some v).
Proof.
  assert (Hin : In (mkVRow d_2023_01_01 (Some 15) (Some 14) (Some 1))
                   (verification_df (facility_daily_sum sample_facility_df)
                                    (state_daily_sum sample_state_df))).
  { vm_compute. left. reflexivity. }
  split; [split; [reflexivity | split; [reflexivity | exact Hin]]|].
  exact (matched_iff_same_total sample_facility_df sample_state_df _
           eq_refl eq_refl Hin).
Defined.

Lemma pivot_margins_witness :
  small_counts daily (rows sample_facility)
  /\ sum_where (fun k => key_eqb 2023 (fst k))
               (facility_yearly_pivot
                  (facility_df sample_reader sample_facility))
     = match get (yearly_facility
                     (facility_df sample_reader sample_facility)) 2023 with
       | Some t => t
       | None => 0
       end.
Proof.
  split; [reflexivity|].
  exact (proj1 (pivot_margins sample_reader sample_facility eq_refl) 2023).
Defined.

